(** * Omni Engine: memory bridge and operator core

    A shallow embedding of [modules/memory_bridge] (entry, layer, catalog,
    witness, fusion, bridge) and of [modules/operator.py], followed by the
    properties of these components.

    Conventions of the embedding:
    - a Python [str] is a [string]; each [ascii] is the code point of one
      character (code points below 256);
    - a Python [dict] keyed by [str] is an insertion-ordered association
      list ([PyDict]): assignment overwrites in place or appends;
    - objects that are shared and mutated (layers, nodes) live in a store
      and are referred to by their address; identity is address equality;
    - a method that may raise returns a [result]; a method that mutates takes
      the world and returns the world it leaves behind, also when it raises. *)

From Stdlib Require Import ZArith Ascii String List Lia Bool DecimalString.
From stdpp Require Import base list strings.

Set Default Proof Using "Type".
Set Warnings "-register-all".
Local Open Scope Z_scope.

(** ** Python strings *)

(** [str.isspace] on one character, for the code points below 256:
    TAB..CR, FS..US, SPACE, NEL and NBSP. *)
Definition isspace (c : ascii) : bool :=
  let n := nat_of_ascii c in
  ((9 <=? n)%nat && (n <=? 13)%nat)
  || ((28 <=? n)%nat && (n <=? 32)%nat)
  || (n =? 133)%nat || (n =? 160)%nat.

Fixpoint lstrip (s : string) : string :=
  match s with
  | EmptyString => EmptyString
  | String c s' => if isspace c then lstrip s' else s
  end.

Fixpoint rstrip (s : string) : string :=
  match s with
  | EmptyString => EmptyString
  | String c s' =>
      match rstrip s' with
      | EmptyString => if isspace c then EmptyString else String c EmptyString
      | r => String c r
      end
  end.

(** [s.strip()] *)
Definition strip (s : string) : string := rstrip (lstrip s).

(** Truth value of a string: [not s] holds of the empty string only. *)
Definition str_not (s : string) : bool :=
  match s with EmptyString => true | _ => false end.

(** [str(n)] for a length. *)
Definition str_of_nat (n : nat) : string :=
  NilEmpty.string_of_uint (Nat.to_uint n).

(** ** Exceptions and results

    [Exception] stands for whatever a connector raises.  [Dangling] is not a
    Python exception: it is the outcome of going through an address that the
    store does not hold, which no well-formed world reaches. *)

Inductive exn : Type :=
| ValueError (msg : string)
| KeyError (key : string)
| TypeError (msg : string)
| Exception (msg : string)
| Dangling.

Inductive result (A : Type) : Type :=
| Ok (a : A)
| Raise (e : exn).
Arguments Ok {A} a.
Arguments Raise {A} e.

Definition is_ok {A} (r : result A) : bool :=
  match r with Ok _ => true | Raise _ => false end.

(** ** Insertion-ordered dictionaries keyed by strings *)

Module PyDict.
Section Dict.
Context {V : Type}.

Definition t := list (string * V).

Definition empty : t := [].

(** [d.get(k)] *)
Fixpoint get (k : string) (d : t) : option V :=
  match d with
  | [] => None
  | (k', v) :: d' => if String.eqb k k' then Some v else get k d'
  end.

(** [k in d] *)
Definition contains (k : string) (d : t) : bool :=
  match get k d with Some _ => true | None => false end.

(** [d[k] = v]: an existing key keeps its position, a new one goes last. *)
Fixpoint set (k : string) (v : V) (d : t) : t :=
  match d with
  | [] => [(k, v)]
  | (k', v') :: d' =>
      if String.eqb k k' then (k, v) :: d' else (k', v') :: set k v d'
  end.

(** [del d[k]] for a key that is present. *)
Fixpoint remove (k : string) (d : t) : t :=
  match d with
  | [] => []
  | (k', v') :: d' =>
      if String.eqb k k' then d' else (k', v') :: remove k d'
  end.

Definition keys (d : t) : list string := map fst d.
Definition values (d : t) : list V := map snd d.

(** The keys of a dictionary are pairwise distinct. *)
Definition wf (d : t) : Prop := NoDup (keys d).
End Dict.
Arguments t : clear implicits.
End PyDict.

(** ** Plain serialisable records ([to_dict] results) *)

Inductive value : Type :=
| VStr (s : string)
| VList (l : list value)
| VDict (d : list (string * value)).

(** ** catalog.py *)

Module FunctionSpec.
Record t : Type := mk {
  name : string;
  description : string;
  inputs : PyDict.t string;
  outputs : PyDict.t string;
  tags : list string
}.

(** The dataclass constructor followed by [__post_init__]. *)
Definition new (name description : string)
    (inputs outputs : PyDict.t string) (tags : list string) : result t :=
  let name' := strip name in
  if str_not name' then Raise (ValueError "Function name cannot be empty.")
  else if str_not (strip description)
  then Raise (ValueError "Function description cannot be empty.")
  else Ok (mk name' description inputs outputs tags).

Definition str_dict (d : PyDict.t string) : value :=
  VDict (map (fun kv => (fst kv, VStr (snd kv))) d).

Definition to_dict (spec : t) : value :=
  VDict [ ("name", VStr (name spec));
          ("description", VStr (description spec));
          ("inputs", str_dict (inputs spec));
          ("outputs", str_dict (outputs spec));
          ("tags", VList (map VStr (tags spec))) ].
End FunctionSpec.

Module McpCatalog.
(** The catalog object is its [_functions] dictionary. *)
Definition t := PyDict.t FunctionSpec.t.

Definition new : t := PyDict.empty.

(** [register(spec, replace=...)]: the outcome and the catalog afterwards. *)
Definition register (spec : FunctionSpec.t) (replace : bool) (c : t)
  : result unit * t :=
  if PyDict.contains (FunctionSpec.name spec) c && negb replace
  then (Raise (ValueError ("Function '" +:+ FunctionSpec.name spec
                             +:+ "' is already registered.")), c)
  else (Ok tt, PyDict.set (FunctionSpec.name spec) spec c).

Definition remove (name : string) (c : t) : result unit * t :=
  if negb (PyDict.contains name c) then (Raise (KeyError name), c)
  else (Ok tt, PyDict.remove name c).

Definition get (name : string) (c : t) : result FunctionSpec.t :=
  match PyDict.get name c with
  | Some spec => Ok spec
  | None => Raise (KeyError name)
  end.

Definition describe (c : t) : list value :=
  map FunctionSpec.to_dict (PyDict.values c).

Definition clear (c : t) : t := PyDict.empty.

(** Every spec is filed under its own name, once. *)
Definition wf (c : t) : Prop :=
  PyDict.wf c /\ Forall (fun kv => FunctionSpec.name (snd kv) = fst kv) c.
End McpCatalog.

(** ** entry.py *)

Module datetime.
(** [wall] holds the date and time fields, in microseconds; [tzinfo] is the
    identity of the tzinfo object, [None] for a value without one; [offset]
    is what that object's [utcoffset] reports for this value, in
    microseconds.  One tzinfo object may report different offsets for
    different values, as a [ZoneInfo] does across a daylight-saving
    change. *)
Record t : Type := mk { wall : Z; tzinfo : option nat; offset : option Z }.

(** The object [timezone.utc]. *)
Definition utc : nat := 0.

(** [utcoffset()]: [None] without a tzinfo object, its report otherwise. *)
Definition utcoffset (d : t) : option Z :=
  match tzinfo d with
  | None => None
  | Some _ => offset d
  end.

(** [d.tzinfo is not None and d.tzinfo.utcoffset(d) is not None]. *)
Definition aware (d : t) : bool :=
  match utcoffset d with Some _ => true | None => false end.

(** [a >= b].  Two values that carry the same tzinfo object (or none)
    compare their date and time fields, whatever their offsets; so do two
    values that report the same offset, or both none; two values reporting
    different offsets compare their UTC instants; and a value without an
    offset does not compare with one that has an offset. *)
Definition ge (a b : t) : result bool :=
  if bool_decide (tzinfo a = tzinfo b) then Ok (wall b <=? wall a)
  else
    match utcoffset a, utcoffset b with
    | None, None => Ok (wall b <=? wall a)
    | Some oa, Some ob =>
        if oa =? ob then Ok (wall b <=? wall a)
        else Ok (wall b - ob <=? wall a - oa)
    | _, _ =>
        Raise (TypeError "can't compare offset-naive and offset-aware datetimes")
    end.

(** [datetime.now(timezone.utc)] when the clock reads [clock]. *)
Definition now_utc (clock : Z) : t := mk clock (Some utc) (Some 0).
End datetime.

Module MemoryEntry.
Record t : Type := mk {
  layer : string;
  content : string;
  source : string;
  timestamp : datetime.t
}.
End MemoryEntry.

(** ** layer.py *)

Module MemoryLayer.
Record t : Type := mk { name : string; entries : list MemoryEntry.t }.

Definition new (name : string) : t := mk name [].

(** [add(entry)]: the outcome and the layer afterwards. *)
Definition add (entry : MemoryEntry.t) (l : t) : result unit * t :=
  if negb (String.eqb (MemoryEntry.layer entry) (name l))
  then (Raise (ValueError "Entry layer mismatch"), l)
  else (Ok tt, mk (name l) (entries l ++ [entry])).

Definition all (l : t) : list MemoryEntry.t := entries l.

(** The comprehension [[entry for entry in self.entries
    if entry.timestamp >= since]]. *)
Fixpoint since_filter (since : datetime.t) (es : list MemoryEntry.t)
  : result (list MemoryEntry.t) :=
  match es with
  | [] => Ok []
  | entry :: rest =>
      match datetime.ge (MemoryEntry.timestamp entry) since with
      | Raise e => Raise e
      | Ok keep =>
          match since_filter since rest with
          | Raise e => Raise e
          | Ok kept => Ok (if keep then entry :: kept else kept)
          end
      end
  end.

Definition query (since : option datetime.t) (l : t)
  : result (list MemoryEntry.t) :=
  match since with
  | None => Ok (all l)
  | Some since =>
      if negb (datetime.aware since)
      then Raise (ValueError "'since' must be timezone-aware.")
      else since_filter since (entries l)
  end.
End MemoryLayer.

(** ** node.py and witness.py *)

Module Node.
(** A node in the sense of the [IntelligenceNode] protocol, as
    [tests/test_bridge.py] implements it: [fetch_updates] hands out and
    clears [outbound], [apply_update] appends to [inbound]. *)
Record t : Type := mk {
  name : string;
  outbound : list MemoryEntry.t;
  inbound : list MemoryEntry.t
}.

Definition new (name : string) (outbound : list MemoryEntry.t) : t :=
  mk name outbound [].

Definition fetch_updates (n : t) : list MemoryEntry.t * t :=
  (outbound n, mk (name n) [] (inbound n)).

Definition apply_update (entry : MemoryEntry.t) (n : t) : t :=
  mk (name n) (outbound n) (inbound n ++ [entry]).
End Node.

Module WitnessNetwork.
(** Subscribers are node addresses. *)
Record t : Type := mk { log : list MemoryEntry.t; subscribers : list nat }.

Definition new : t := mk [] [].

Definition register (node : nat) (wn : t) : t :=
  mk (log wn) (subscribers wn ++ [node]).
End WitnessNetwork.

(** ** The world: object stores, and the bridge's components *)

Record World : Type := mkWorld {
  heap : list MemoryLayer.t;      (* the MemoryLayer objects, by address *)
  nodes : list Node.t;            (* the node objects, by address *)
  layers : PyDict.t nat;          (* the layers dict the bridge shares with
                                     its fusion loop: name to layer address *)
  witnesses : WitnessNetwork.t;
  catalog : McpCatalog.t
}.

Definition with_heap (h : list MemoryLayer.t) (w : World) : World :=
  mkWorld h (nodes w) (layers w) (witnesses w) (catalog w).
Definition with_nodes (ns : list Node.t) (w : World) : World :=
  mkWorld (heap w) ns (layers w) (witnesses w) (catalog w).
Definition with_layers (ls : PyDict.t nat) (w : World) : World :=
  mkWorld (heap w) (nodes w) ls (witnesses w) (catalog w).
Definition with_witnesses (wn : WitnessNetwork.t) (w : World) : World :=
  mkWorld (heap w) (nodes w) (layers w) wn (catalog w).
Definition with_catalog (c : McpCatalog.t) (w : World) : World :=
  mkWorld (heap w) (nodes w) (layers w) (witnesses w) c.

(** A method: from the world before to its outcome and the world after. *)
Definition M (A : Type) : Type := World -> result A * World.

Definition ret {A} (a : A) : M A := fun w => (Ok a, w).
Definition raise {A} (e : exn) : M A := fun w => (Raise e, w).
Definition bind {A B} (m : M A) (k : A -> M B) : M B :=
  fun w => match m w with
           | (Ok a, w') => k a w'
           | (Raise e, w') => (Raise e, w')
           end.
Definition lift {A} (r : result A) : M A := fun w => (r, w).

Notation "'let*' x := m 'in' k" := (bind m (fun x => k))
  (at level 10, x pattern, m at level 100, k at level 200).
Notation "m ;; k" := (bind m (fun _ => k))
  (at level 100, k at level 200, right associativity).

(** [MemoryLayer(name)], allocated. *)
Definition alloc_layer (l : MemoryLayer.t) : M nat :=
  fun w => (Ok (length (heap w)), with_heap (heap w ++ [l]) w).

(** [layer.add(entry)] on the layer object at address [a]. *)
Definition layer_add (a : nat) (entry : MemoryEntry.t) : M unit :=
  fun w => match heap w !! a with
           | None => (Raise Dangling, w)
           | Some l =>
               let '(r, l') := MemoryLayer.add entry l in
               (r, with_heap (<[a := l']> (heap w)) w)
           end.

(** [Node(name, outbound)], allocated. *)
Definition alloc_node (n : Node.t) : M nat :=
  fun w => (Ok (length (nodes w)), with_nodes (nodes w ++ [n]) w).

Definition fetch_updates (node : nat) : M (list MemoryEntry.t) :=
  fun w => match nodes w !! node with
           | None => (Raise Dangling, w)
           | Some n =>
               let '(updates, n') := Node.fetch_updates n in
               (Ok updates, with_nodes (<[node := n']> (nodes w)) w)
           end.

Definition apply_update (node : nat) (entry : MemoryEntry.t) : M unit :=
  fun w => match nodes w !! node with
           | None => (Raise Dangling, w)
           | Some n =>
               (Ok tt,
                with_nodes (<[node := Node.apply_update entry n]> (nodes w)) w)
           end.

(** [witnesses.register(node)] *)
Definition witness_register (node : nat) : M unit :=
  fun w => (Ok tt, with_witnesses (WitnessNetwork.register node (witnesses w)) w).

(** The subscriber loop of [broadcast]. *)
Fixpoint deliver (entry : MemoryEntry.t) (origin : option nat)
    (subscribers : list nat) : M unit :=
  match subscribers with
  | [] => ret tt
  | node :: rest =>
      (match origin with
       | Some o => if Nat.eqb node o then ret tt else apply_update node entry
       | None => apply_update node entry
       end) ;;
      deliver entry origin rest
  end.

(** [witnesses.broadcast(entry, origin=origin)] *)
Definition broadcast (entry : MemoryEntry.t) (origin : option nat) : M unit :=
  fun w =>
    let wn := witnesses w in
    let w1 := with_witnesses
                (WitnessNetwork.mk (WitnessNetwork.log wn ++ [entry])
                                   (WitnessNetwork.subscribers wn)) w in
    deliver entry origin (WitnessNetwork.subscribers wn) w1.

(** ** fusion.py *)

Module FusionLoop.
(** [self.layers.setdefault(name, fresh)] *)
Definition layers_setdefault (name : string) (fresh : nat) : M nat :=
  fun w => match PyDict.get name (layers w) with
           | Some a => (Ok a, w)
           | None => (Ok fresh, with_layers (PyDict.set name fresh (layers w)) w)
           end.

(** The inner loop of [cycle], over the updates of one node. *)
Fixpoint cycle_entries (node : nat) (updates : list MemoryEntry.t) : M unit :=
  match updates with
  | [] => ret tt
  | entry :: rest =>
      let* fresh := alloc_layer (MemoryLayer.new (MemoryEntry.layer entry)) in
      let* layer := layers_setdefault (MemoryEntry.layer entry) fresh in
      layer_add layer entry ;;
      broadcast entry (Some node) ;;
      cycle_entries node rest
  end.

Fixpoint cycle (nodes : list nat) : M unit :=
  match nodes with
  | [] => ret tt
  | node :: rest =>
      let* updates := fetch_updates node in
      cycle_entries node updates ;;
      cycle rest
  end.
End FusionLoop.

(** ** bridge.py *)

Module MemoryBridge.
Definition _register_layer_spec (name : string) : M unit :=
  let* spec :=
    lift (FunctionSpec.new
            ("memory.fetch_" +:+ name)
            ("Retrieve stored entries from the '" +:+ name
               +:+ "' memory layer.")
            [("since", "Optional ISO-8601 timestamp used to filter results.")]
            [("entries",
              "List of serialized memory entries with layer, source, "
                +:+ "content, and timestamp.")]
            ["memory"; name]) in
  fun w => let '(r, c) := McpCatalog.register spec true (catalog w) in
           (r, with_catalog c w).



(** [MemoryBridge()] *)
Definition fresh : World :=
  mkWorld [] [] PyDict.empty WitnessNetwork.new McpCatalog.new.

Definition register_layer (name : string) : M nat :=
  if str_not (strip name) then raise (ValueError "Layer name cannot be empty.")
  else fun w =>
    match PyDict.get name (layers w) with
    | Some layer => (Ok layer, w)
    | None =>
        (let* layer := alloc_layer (MemoryLayer.new name) in
         (fun w => (Ok tt, with_layers (PyDict.set name layer (layers w)) w)) ;;
         _register_layer_spec name ;;
         ret layer) w
    end.

Definition get_layer (name : string) : M nat :=
  fun w => match PyDict.get name (layers w) with
           | Some layer => (Ok layer, w)
           | None => (Raise (KeyError name), w)
           end.

Definition register_node (node : nat) : M unit := witness_register node.

Definition sync (nodes : list nat) : M unit := FusionLoop.cycle nodes.

Definition describe_functions (w : World) : list value :=
  McpCatalog.describe (catalog w).
End MemoryBridge.

(** The entries stored in the layer filed under [name], if there is one. *)
Definition layer_entries (name : string) (w : World)
  : option (list MemoryEntry.t) :=
  match PyDict.get name (layers w) with
  | Some a => MemoryLayer.entries <$> heap w !! a
  | None => None
  end.

(** ** connectors and operator.py *)

Module Connector.
(** A connector, by its name and by what its [gather()] does when the
    cycle calls it: return entries or raise. *)
Record t : Type := mk {
  name : string;
  gather : result (list MemoryEntry.t)
}.
End Connector.

Module ConnectorAudit.
Record t : Type := mk {
  name : string;
  produced : Z;
  layer_counts : PyDict.t Z;
  alerts : list string
}.
End ConnectorAudit.

Module AuditReport.
Record t : Type := mk {
  timestamp : datetime.t;
  connectors : list ConnectorAudit.t
}.
End AuditReport.

Module OperatorCore.
(** The operator's [connectors] dictionary; its bridge is the world. *)
Definition t := PyDict.t Connector.t.

Definition register_connector (connector : Connector.t) (cs : t) : t :=
  PyDict.set (Connector.name connector) connector cs.

(** [OperatorCore(connectors=...)] *)
Definition new (connectors : list Connector.t) : t :=
  fold_left (fun cs c => register_connector c cs) connectors PyDict.empty.

(** The loop of [run_cycle] over the entries of one connector. *)
Fixpoint ingest (entries : list MemoryEntry.t)
    (layer_counts : PyDict.t Z) (alerts : list string)
  : M (PyDict.t Z * list string) :=
  match entries with
  | [] => ret (layer_counts, alerts)
  | entry :: rest =>
      let* layer := MemoryBridge.register_layer (MemoryEntry.layer entry) in
      layer_add layer entry ;;
      let layer_counts :=
        PyDict.set (MemoryEntry.layer entry)
          (default 0 (PyDict.get (MemoryEntry.layer entry) layer_counts) + 1)
          layer_counts in
      let alerts :=
        if String.eqb (MemoryEntry.layer entry) "ingestion_alerts"
        then alerts ++ [MemoryEntry.content entry] else alerts in
      ingest rest layer_counts alerts
  end.

(** The body of the loop of [run_cycle] over the connectors. *)
Definition run_connector (connector : Connector.t) : M ConnectorAudit.t :=
  let* entries := lift (Connector.gather connector) in
  let* counted := ingest entries PyDict.empty [] in
  ret (ConnectorAudit.mk (Connector.name connector)
         (Z.of_nat (length entries)) (fst counted) (snd counted)).

Fixpoint run_connectors (connectors : list Connector.t)
    (audits : list ConnectorAudit.t) : M (list ConnectorAudit.t) :=
  match connectors with
  | [] => ret audits
  | connector :: rest =>
      let* audit := run_connector connector in
      run_connectors rest (audits ++ [audit])
  end.

(** [run_cycle()], when the clock reads [clock] at the end. *)
Definition run_cycle (clock : Z) (cs : t) : M AuditReport.t :=
  let* audits := run_connectors (PyDict.values cs) [] in
  ret (AuditReport.mk (datetime.now_utc clock) audits).

(** [layer_snapshot()] *)
Definition layer_snapshot (w : World) : PyDict.t (list MemoryEntry.t) :=
  omap (fun kv => (fun l => (fst kv, MemoryLayer.all l)) <$> heap w !! snd kv)
       (layers w).

Definition no_entries (name : string) : string :=
  "Connector '" +:+ name +:+ "' produced no entries. Verify its data sources.".

Definition emitted_alerts (name : string) (n : nat) : string :=
  "Connector '" +:+ name +:+ "' emitted " +:+ str_of_nat n
    +:+ " alerts that require review.".

Definition nominal : string :=
  "All connectors are operating nominally. Continue monitoring throughput.".

(** The loop of [generate_recommendations]. *)
Fixpoint recommend (audits : list ConnectorAudit.t)
    (recommendations : list string) : list string :=
  match audits with
  | [] => recommendations
  | audit :: rest =>
      let recommendations :=
        if ConnectorAudit.produced audit =? 0
        then recommendations ++ [no_entries (ConnectorAudit.name audit)]
        else recommendations in
      let recommendations :=
        match ConnectorAudit.alerts audit with
        | [] => recommendations
        | _ :: _ =>
            recommendations
              ++ [emitted_alerts (ConnectorAudit.name audit)
                    (length (ConnectorAudit.alerts audit))]
        end in
      recommend rest recommendations
  end.

Definition generate_recommendations (report : AuditReport.t) : list string :=
  let recommendations := recommend (AuditReport.connectors report) [] in
  match recommendations with
  | [] => recommendations ++ [nominal]
  | _ :: _ => recommendations
  end.
End OperatorCore.

(** ** More of the catalog, the bridge and the connectors *)

(** [len(catalog)] *)
Definition catalog_len (c : McpCatalog.t) : nat := length c.

(** [name in catalog] *)
Definition catalog_contains (name : string) (c : McpCatalog.t) : bool :=
  PyDict.contains name c.

Section Serialise.
(** [datetime.isoformat], of the Python library. *)
Variable isoformat : datetime.t -> string.

(** [MemoryEntry.to_dict] *)
Definition entry_to_dict (entry : MemoryEntry.t) : value :=
  VDict [ ("layer", VStr (MemoryEntry.layer entry));
          ("content", VStr (MemoryEntry.content entry));
          ("source", VStr (MemoryEntry.source entry));
          ("timestamp", VStr (isoformat (MemoryEntry.timestamp entry))) ].

(** [MemoryBridge.export_layer(name, since=since)] *)
Definition export_layer (name : string) (since : option datetime.t)
  : M (list value) :=
  let* layer := MemoryBridge.get_layer name in
  fun w => match heap w !! layer with
           | None => (Raise Dangling, w)
           | Some l =>
               match MemoryLayer.query since l with
               | Ok entries => (Ok (map entry_to_dict entries), w)
               | Raise e => (Raise e, w)
               end
           end.
End Serialise.

Module StaticConnector.
Record t : Type := mk {
  name : string;
  layer : string;
  payloads : list string;
  source : string
}.

(** [gather()], when the clock reads [clock]. *)
Definition gather (clock : Z) (c : t) : list MemoryEntry.t :=
  map (fun payload =>
         MemoryEntry.mk (layer c) payload (source c) (datetime.now_utc clock))
      (payloads c).

(** The connector as the operator sees it during one cycle. *)
Definition connector (clock : Z) (c : t) : Connector.t :=
  Connector.mk (name c) (Ok (gather clock c)).
End StaticConnector.

(** ** mcp_orchestrator.py: the connector registry and sequential execution

    Log messages are left out, and so are the clock readings of the
    history records ([timestamp], [execution_time]). *)

Module MCPOrchestrator.
(** A record of [execution_history]: [success] with [entries_generated],
    or failure with the exception whose text the record keeps. *)
Inductive execution : Type :=
| Succeeded (connector : string) (entries_generated : nat)
| Failed (connector : string) (error : exn).

Record t : Type := mk {
  connectors : PyDict.t Connector.t;
  execution_history : list execution
}.

Definition add_connector (name : string) (connector : Connector.t) (o : t) : t :=
  mk (PyDict.set name connector (connectors o)) (execution_history o).

Definition remove_connector (name : string) (o : t) : bool * t :=
  if PyDict.contains name (connectors o)
  then (true, mk (PyDict.remove name (connectors o)) (execution_history o))
  else (false, o).

Definition execute_single_connector (name : string) (o : t)
  : list MemoryEntry.t * t :=
  match PyDict.get name (connectors o) with
  | None => ([], o)
  | Some connector =>
      match Connector.gather connector with
      | Ok entries =>
          (entries,
           mk (connectors o)
              (execution_history o ++ [Succeeded name (length entries)]))
      | Raise e =>
          ([], mk (connectors o) (execution_history o ++ [Failed name e]))
      end
  end.

(** The loop of the sequential branch of [execute_parallel]. *)
Fixpoint execute_each (names : list string)
    (results : PyDict.t (list MemoryEntry.t)) (o : t)
  : PyDict.t (list MemoryEntry.t) * t :=
  match names with
  | [] => (results, o)
  | name :: rest =>
      let '(entries, o') := execute_single_connector name o in
      execute_each rest (PyDict.set name entries results) o'
  end.

(** [execute_parallel()] when [parallel_execution] is off or there is at
    most one connector. *)
Definition execute_sequential (o : t) : PyDict.t (list MemoryEntry.t) * t :=
  execute_each (PyDict.keys (connectors o)) PyDict.empty o.
End MCPOrchestrator.

(** ** Scenarios *)

(** Two nodes registered with the witness network of a fresh bridge, the
    first with two pending entries, and one fusion cycle over both. *)
Definition fusion_scenario (nameA nameB : string) (e1 e2 : MemoryEntry.t)
  : M (nat * nat) :=
  let* a := alloc_node (Node.new nameA [e1; e2]) in
  let* b := alloc_node (Node.new nameB []) in
  witness_register a ;;
  witness_register b ;;
  FusionLoop.cycle [a; b] ;;
  ret (a, b).

(** One node with one pending entry, synchronised through the bridge. *)
Definition sync_scenario (e : MemoryEntry.t) : M unit :=
  let* a := alloc_node (Node.new "A" [e]) in
  MemoryBridge.register_node a ;;
  MemoryBridge.sync [a].

(** [register_layer(name)], twice. *)
Definition register_twice (name : string) : M (nat * nat) :=
  let* first := MemoryBridge.register_layer name in
  let* second := MemoryBridge.register_layer name in
  ret (first, second).

(** [register_layer(first)], then [register_layer(second)]. *)
Definition register_both (first second : string) : M (nat * nat) :=
  let* a := MemoryBridge.register_layer first in
  let* b := MemoryBridge.register_layer second in
  ret (a, b).

Definition entry_at (layer content : string) : MemoryEntry.t :=
  MemoryEntry.mk layer content "test" (datetime.now_utc 0).

(** Three connectors, the second of which raises in [gather()]. *)
Definition failing_operator : OperatorCore.t :=
  OperatorCore.new
    [ Connector.mk "FIRST" (Ok [entry_at "x" "one"]);
      Connector.mk "BROKEN" (Raise (Exception "boom"));
      Connector.mk "LAST" (Ok [entry_at "y" "two"]) ].

(** The connectors of the end-to-end scenario. *)
Definition alert_operator : OperatorCore.t :=
  OperatorCore.new
    [ Connector.mk "FILES" (Ok [entry_at "legal_evidence" "Indexed file: a"]);
      Connector.mk "ALERT"
        (Ok [entry_at "ingestion_alerts" "dependency missing"]) ].

(** * Properties *)

(** ** Strings *)

(** A string is blank when it is empty or holds whitespace only. *)
Definition blank (s : string) : bool :=
  forallb isspace (list_ascii_of_string s).

Definition starts_space (s : string) : bool :=
  match s with String c _ => isspace c | EmptyString => false end.

Fixpoint ends_space (s : string) : bool :=
  match s with
  | EmptyString => false
  | String c EmptyString => isspace c
  | String _ s' => ends_space s'
  end.

(** [s] mentions [name] when [name] occurs in it. *)
Definition mentions (name s : string) : Prop :=
  exists pre post, s = pre +:+ name +:+ post.

(** The UTC instant of an aware timestamp. *)
Definition instant (d : datetime.t) : Z :=
  datetime.wall d - default 0 (datetime.utcoffset d).

Definition aware_entry (e : MemoryEntry.t) : bool :=
  datetime.aware (MemoryEntry.timestamp e).

(** [e]'s timestamp is at or after [since], as instants. *)
Definition at_or_after (since : datetime.t) (e : MemoryEntry.t) : bool :=
  instant since <=? instant (MemoryEntry.timestamp e).

(** [e]'s timestamp carries the very tzinfo object of [since]. *)
Definition shares_zone (since : datetime.t) (e : MemoryEntry.t) : bool :=
  bool_decide (datetime.tzinfo (MemoryEntry.timestamp e)
               = datetime.tzinfo since).

(** [e]'s timestamp and [since] are not two readings of one tzinfo object
    at different offsets, as on the two sides of a daylight-saving
    change. *)
Definition steady (since : datetime.t) (e : MemoryEntry.t) : bool :=
  negb (shares_zone since e)
  || bool_decide (datetime.utcoffset (MemoryEntry.timestamp e)
                  = datetime.utcoffset since).

(** [e]'s date and time fields read at or after those of [since]. *)
Definition reads_at_or_after (since : datetime.t) (e : MemoryEntry.t) : bool :=
  datetime.wall since <=? datetime.wall (MemoryEntry.timestamp e).

(** What one audit contributes to the recommendations. *)
Definition flags (a : ConnectorAudit.t) : list string :=
  (if ConnectorAudit.produced a =? 0
   then [OperatorCore.no_entries (ConnectorAudit.name a)] else [])
  ++ (if bool_decide (ConnectorAudit.alerts a = [])
      then []
      else [OperatorCore.emitted_alerts (ConnectorAudit.name a)
              (length (ConnectorAudit.alerts a))]).

(** Every name of the layers dict leads to a layer object of that name. *)
Definition wf_world (w : World) : Prop :=
  forall n a, PyDict.get n (layers w) = Some a ->
    exists l, heap w !! a = Some l /\ MemoryLayer.name l = n.

(** The entries stored under [n]: none when there is no such layer. *)
Definition stored (n : string) (w : World) : list MemoryEntry.t :=
  default [] (layer_entries n w).

Definition on_layer (n : string) (e : MemoryEntry.t) : bool :=
  String.eqb (MemoryEntry.layer e) n.

Definition count_on (n : string) (entries : list MemoryEntry.t) : Z :=
  Z.of_nat (length (List.filter (on_layer n) entries)).

(** The per-layer counts of [entries], added to [counts]. *)
Definition tally (entries : list MemoryEntry.t) (counts : PyDict.t Z)
  : PyDict.t Z :=
  fold_left
    (fun c e => PyDict.set (MemoryEntry.layer e)
                  (default 0 (PyDict.get (MemoryEntry.layer e) c) + 1) c)
    entries counts.

(** The contents of the entries on the sentinel layer, in entry order. *)
Definition alert_contents (entries : list MemoryEntry.t) : list string :=
  map MemoryEntry.content (List.filter (on_layer "ingestion_alerts") entries).

(** What a connector's [gather()] returned. *)
Definition gathered (c : Connector.t) : list MemoryEntry.t :=
  match Connector.gather c with Ok entries => entries | Raise _ => [] end.

(** [gather()] returns, and every entry names a layer that is not blank. *)
Definition gathers_ok (c : Connector.t) : Prop :=
  is_ok (Connector.gather c) = true
  /\ Forall (fun e => blank (MemoryEntry.layer e) = false) (gathered c).

(** The audit that describes what a connector gathered. *)
Definition audit_of (c : Connector.t) : ConnectorAudit.t :=
  ConnectorAudit.mk (Connector.name c) (Z.of_nat (length (gathered c)))
    (tally (gathered c) PyDict.empty) (alert_contents (gathered c)).

(** The spec that the bridge files for the layer [name]. *)
Definition fetch_spec (name : string) : FunctionSpec.t :=
  FunctionSpec.mk
    ("memory.fetch_" +:+ rstrip name)
    ("Retrieve stored entries from the '" +:+ name +:+ "' memory layer.")
    [("since", "Optional ISO-8601 timestamp used to filter results.")]
    [("entries",
      "List of serialized memory entries with layer, source, "
        +:+ "content, and timestamp.")]
    ["memory"; name].

(** Every layer of the bridge has its spec in the catalog. *)
Definition catalog_synced (w : World) : Prop :=
  forall n, PyDict.contains n (layers w) = true ->
    PyDict.contains (FunctionSpec.name (fetch_spec n)) (catalog w) = true.

(** How many specs of the catalog bear the name [n]. *)
Definition count_named (n : string) (c : McpCatalog.t) : nat :=
  length (List.filter (fun s => String.eqb (FunctionSpec.name s) n)
            (PyDict.values c)).

(** The part of the world that belongs to the witness network. *)
Definition witness_side (w : World) : WitnessNetwork.t * list Node.t :=
  (witnesses w, nodes w).

(** [m] leaves the observation [f] of the world as it was, whatever its
    outcome. *)
Definition keeps {A X} (f : World -> X) (m : M A) : Prop :=
  forall w, f (snd (m w)) = f w.

(** The operations of a catalog, and a catalog after a sequence of them,
    each applied whatever the outcome of the one before. *)
Inductive catalog_op : Type :=
| OpRegister (spec : FunctionSpec.t) (replace : bool)
| OpRemove (name : string)
| OpClear.

Definition catalog_step (c : McpCatalog.t) (op : catalog_op) : McpCatalog.t :=
  match op with
  | OpRegister spec replace => snd (McpCatalog.register spec replace c)
  | OpRemove name => snd (McpCatalog.remove name c)
  | OpClear => McpCatalog.clear c
  end.

Definition catalog_after (ops : list catalog_op) : McpCatalog.t :=
  fold_left catalog_step ops McpCatalog.new.

(** The names under which [describe()] lists the specs. *)
Definition described_names (c : McpCatalog.t) : list string :=
  map FunctionSpec.name (PyDict.values c).

(** A layer after [add] has been called with each of [es] in turn, whatever
    the outcome of each call. *)
Fixpoint add_each (es : list MemoryEntry.t) (l : MemoryLayer.t)
  : MemoryLayer.t :=
  match es with
  | [] => l
  | e :: rest => add_each rest (snd (MemoryLayer.add e l))
  end.

(** How often [m] occurs in a list of node addresses. *)
Definition occurrences (m : nat) (l : list nat) : nat :=
  length (List.filter (Nat.eqb m) l).

(** Whether a broadcast from [origin] passes over the node [m]. *)
Definition skips (origin : option nat) (m : nat) : bool :=
  match origin with Some o => Nat.eqb m o | None => false end.

(** How many times a broadcast from [origin] hands its entry to [m]. *)
Definition deliveries (origin : option nat) (subscribers : list nat)
    (m : nat) : nat :=
  if skips origin m then 0%nat else occurrences m subscribers.

(** The node [nd] after it has received [entries]. *)
Definition received (entries : list MemoryEntry.t) (nd : Node.t) : Node.t :=
  Node.mk (Node.name nd) (Node.outbound nd) (Node.inbound nd ++ entries).

(** The addresses of [l] are addresses of nodes of the world. *)
Definition valid_nodes (l : list nat) (w : World) : Prop :=
  Forall (fun n => (n < length (nodes w))%nat) l.

(** What a cycle over [nodes] polls, node by node, when [outs] lists the
    pending updates of every node: a node polled again has nothing left. *)
Fixpoint polls (nodes : list nat) (outs : list (list MemoryEntry.t))
  : list (nat * list MemoryEntry.t) :=
  match nodes with
  | [] => []
  | node :: rest =>
      (node, default [] (outs !! node)) :: polls rest (<[node := []]> outs)
  end.

(** The entries of the polls, in the order in which the cycle handles them. *)
Definition polled (ps : list (nat * list MemoryEntry.t))
  : list MemoryEntry.t :=
  concat (map snd ps).

(** What the node [m] receives from the broadcasts of the polled entries. *)
Definition fanout (subscribers : list nat) (m : nat)
    (ps : list (nat * list MemoryEntry.t)) : list MemoryEntry.t :=
  flat_map
    (fun p => flat_map
                (fun e => replicate (deliveries (Some (fst p)) subscribers m) e)
                (snd p))
    ps.

(** The world [w'] has the log of [w], possibly with more entries after
    it, and the same subscribers. *)
Definition log_extends (w w' : World) : Prop :=
  WitnessNetwork.subscribers (witnesses w')
  = WitnessNetwork.subscribers (witnesses w)
  /\ exists more,
       WitnessNetwork.log (witnesses w')
       = WitnessNetwork.log (witnesses w) ++ more.

(** [m] takes every world to a world related to it by [R], whatever its
    outcome. *)
Definition evolves {A} (R : World -> World -> Prop) (m : M A) : Prop :=
  forall w, R w (snd (m w)).

(** The names of a list in the order of their first occurrence. *)
Definition first_seen (names : list string) : list string :=
  fold_left
    (fun seen n => if existsb (String.eqb n) seen then seen else seen ++ [n])
    names [].

(** The sum of the values of a dictionary of counts. *)
Definition dict_sum (d : PyDict.t Z) : Z :=
  fold_right Z.add 0 (PyDict.values d).


(** What a connector that ran contributes to the recommendations. *)
Definition connector_flags (c : Connector.t) : list string :=
  (match gathered c with
   | [] => [OperatorCore.no_entries (Connector.name c)]
   | _ :: _ => []
   end)
  ++ (match alert_contents (gathered c) with
      | [] => []
      | _ :: _ =>
          [OperatorCore.emitted_alerts (Connector.name c)
             (length (alert_contents (gathered c)))]
      end).

(** Everything the connectors of an operator gathered, in cycle order. *)
Definition all_gathered (cs : OperatorCore.t) : list MemoryEntry.t :=
  concat (map gathered (PyDict.values cs)).

(** The history record of one execution of the connector [kv]. *)
Definition execution_of (kv : string * Connector.t)
  : MCPOrchestrator.execution :=
  match Connector.gather (snd kv) with
  | Ok entries => MCPOrchestrator.Succeeded (fst kv) (length entries)
  | Raise e => MCPOrchestrator.Failed (fst kv) e
  end.

Lemma str_not_true s : str_not s = true <-> s = EmptyString.
Proof. destruct s; simpl; split; congruence. Qed.

Lemma rstrip_keep c s :
  isspace c = false -> rstrip (String c s) = String c (rstrip s).
Proof. intros Hc. simpl. rewrite Hc. by destruct (rstrip s). Qed.

Lemma rstrip_empty s : rstrip s = EmptyString <-> blank s = true.
Proof.
  unfold blank. induction s as [|c s IH]; simpl; [done|].
  destruct (rstrip s) eqn:Hr.
  - destruct (isspace c); simpl; [by rewrite <- IH|]. split; [done|]. intros [=].
  - split; [done|]. rewrite andb_true_iff. intros [_ Hs]. by apply IH in Hs.
Qed.

Lemma lstrip_empty s : lstrip s = EmptyString <-> blank s = true.
Proof.
  unfold blank. induction s as [|c s IH]; simpl; [done|].
  destruct (isspace c); simpl; [done|]. split; [done|]. intros [=].
Qed.

Lemma lstrip_starts s : starts_space (lstrip s) = false.
Proof.
  induction s as [|c s IH]; simpl; [done|].
  destruct (isspace c) eqn:Hc; simpl; [done|]. exact Hc.
Qed.

Lemma rstrip_starts s : starts_space s = false -> starts_space (rstrip s) = false.
Proof.
  destruct s as [|c s]; simpl; [done|]. intros Hc. rewrite Hc.
  by destruct (rstrip s).
Qed.

Lemma rstrip_ends s : ends_space (rstrip s) = false.
Proof.
  induction s as [|c s IH]; simpl; [done|].
  destruct (rstrip s) eqn:Hr.
  - destruct (isspace c) eqn:Hc; simpl; [done|]. exact Hc.
  - exact IH.
Qed.

Lemma append_nil (b : string) : EmptyString +:+ b = b.
Proof. reflexivity. Qed.

Lemma append_cons c (a b : string) : String c a +:+ b = String c (a +:+ b).
Proof. reflexivity. Qed.

Lemma append_assoc (a b c : string) : (a +:+ b) +:+ c = a +:+ b +:+ c.
Proof.
  induction a as [|x a IH]; [done|]. rewrite !append_cons. by f_equal.
Qed.

Lemma lstrip_split s : exists l, s = l +:+ lstrip s /\ blank l = true.
Proof.
  induction s as [|c s (l & Hs & Hl)]; simpl.
  - by exists EmptyString.
  - destruct (isspace c) eqn:Hc.
    + exists (String c l). rewrite append_cons. split; [by f_equal|].
      unfold blank in *. simpl. by rewrite Hc.
    + by exists EmptyString.
Qed.

Lemma rstrip_split s : exists r, s = rstrip s +:+ r /\ blank r = true.
Proof.
  induction s as [|c s (r & Hs & Hr)]; simpl.
  - by exists EmptyString.
  - destruct (rstrip s) eqn:E.
    + rewrite append_nil in Hs. subst s. destruct (isspace c) eqn:Hc.
      * exists (String c r). split; [done|]. unfold blank in *. simpl.
        by rewrite Hc.
      * by exists r.
    + exists r. split; [|done]. rewrite append_cons. f_equal. exact Hs.
Qed.

(** [strip] removes a blank prefix and a blank suffix, and what is left
    neither starts nor ends with whitespace. *)
Lemma strip_spec s :
  exists l r, s = l +:+ strip s +:+ r /\ blank l = true /\ blank r = true
              /\ starts_space (strip s) = false /\ ends_space (strip s) = false.
Proof.
  destruct (lstrip_split s) as (l & Hs & Hl).
  destruct (rstrip_split (lstrip s)) as (r & Hs' & Hr).
  exists l, r. unfold strip. repeat split; try done.
  - by rewrite <- Hs', <- Hs.
  - apply rstrip_starts, lstrip_starts.
  - apply rstrip_ends.
Qed.

Lemma strip_blank s : str_not (strip s) = blank s.
Proof.
  apply eq_true_iff_eq. rewrite str_not_true. unfold strip.
  rewrite rstrip_empty. split.
  - intros Hb. apply lstrip_empty. pose proof (lstrip_starts s) as Hst.
    destruct (lstrip s) as [|c t]; [done|]. simpl in Hst.
    unfold blank in Hb. simpl in Hb. by rewrite Hst in Hb.
  - intros Hb. apply lstrip_empty in Hb. by rewrite Hb.
Qed.

(** The name of a layer's catalog spec keeps its prefix and the leading
    whitespace of the layer name, and loses the trailing whitespace. *)
Lemma strip_fetch_name name :
  strip ("memory.fetch_" +:+ name) = "memory.fetch_" +:+ rstrip name.
Proof.
  unfold strip. rewrite !append_cons, append_nil.
  change (lstrip (String "m" ?s)) with (String "m" s).
  by rewrite !rstrip_keep.
Qed.

(** ** Dictionaries *)

Section DictFacts.
Context {V : Type}.
Implicit Types (d : PyDict.t V) (k : string) (v : V).

Lemma dict_get_set_eq k v d : PyDict.get k (PyDict.set k v d) = Some v.
Proof.
  induction d as [|[k' v'] d IH]; simpl.
  - by rewrite String.eqb_refl.
  - destruct (String.eqb_spec k k') as [->|Hne]; simpl.
    + by rewrite String.eqb_refl.
    + by destruct (String.eqb_spec k k').
Qed.

Lemma dict_get_set_ne k k' v d :
  k <> k' -> PyDict.get k' (PyDict.set k v d) = PyDict.get k' d.
Proof.
  intros Hne. induction d as [|[k0 v0] d IH]; simpl.
  - by destruct (String.eqb_spec k' k); [subst|].
  - destruct (String.eqb_spec k k0) as [->|Hk]; simpl.
    + by destruct (String.eqb_spec k' k0); [subst|].
    + by rewrite IH.
Qed.

Lemma dict_contains_set k v d : PyDict.contains k (PyDict.set k v d) = true.
Proof. unfold PyDict.contains. by rewrite dict_get_set_eq. Qed.

Lemma dict_get_None_keys k d : PyDict.get k d = None <-> ~ In k (PyDict.keys d).
Proof.
  induction d as [|[k' v'] d IH]; simpl; [tauto|].
  destruct (String.eqb_spec k k') as [->|Hne]; [|rewrite IH];
    intuition congruence.
Qed.

Lemma dict_keys_set k v d :
  PyDict.keys (PyDict.set k v d)
  = if PyDict.contains k d then PyDict.keys d else PyDict.keys d ++ [k].
Proof.
  unfold PyDict.contains. induction d as [|[k' v'] d IH]; simpl; [done|].
  destruct (String.eqb_spec k k') as [->|Hne]; simpl; [done|].
  rewrite IH. by destruct (PyDict.get k d).
Qed.

Lemma dict_wf_set k v d : PyDict.wf d -> PyDict.wf (PyDict.set k v d).
Proof.
  unfold PyDict.wf. rewrite dict_keys_set. unfold PyDict.contains.
  destruct (PyDict.get k d) eqn:Hg; [done|]. intros Hd.
  apply dict_get_None_keys in Hg. apply NoDup_app. split; [done|].
  split; [|apply NoDup_singleton].
  intros x Hx Hx'. apply list_elem_of_In in Hx.
  apply list_elem_of_singleton in Hx'. by subst.
Qed.

Lemma dict_get_In k v d : PyDict.get k d = Some v -> In (k, v) d.
Proof.
  induction d as [|[k' v'] d IH]; simpl; [done|].
  destruct (String.eqb_spec k k') as [->|Hne]; [|by auto].
  intros [= ->]. by left.
Qed.

Lemma dict_In_get k v d : PyDict.wf d -> In (k, v) d -> PyDict.get k d = Some v.
Proof.
  unfold PyDict.wf. induction d as [|[k' v'] d IH]; simpl; [done|].
  rewrite NoDup_cons. intros [Hk Hd] [[= -> ->]|Hin].
  - by rewrite String.eqb_refl.
  - destruct (String.eqb_spec k k') as [->|Hne]; [|by auto].
    exfalso. apply Hk. apply list_elem_of_In.
    change k' with (fst (k', v)). by apply in_map.
Qed.

(** Assignment to a key that is present rewrites that item where it is. *)
Lemma dict_set_present k v d :
  PyDict.wf d -> PyDict.contains k d = true ->
  PyDict.set k v d
  = map (fun kv => if String.eqb (fst kv) k then (k, v) else kv) d.
Proof.
  unfold PyDict.wf, PyDict.contains.
  induction d as [|[k' v'] d IH]; simpl; [done|].
  rewrite NoDup_cons. intros [Hk Hd] Hc.
  rewrite (String.eqb_sym k' k).
  destruct (String.eqb_spec k k') as [->|Hne].
  - f_equal. clear IH Hc. induction d as [|[k0 v0] d IH]; simpl; [done|].
    simpl in Hk, Hd. rewrite not_elem_of_cons in Hk. destruct Hk as [Hk0 Hk].
    apply NoDup_cons in Hd as [_ Hd].
    destruct (String.eqb_spec k0 k') as [->|_]; [done|]. f_equal. by apply IH.
  - f_equal. by apply IH.
Qed.
End DictFacts.

(** ** The catalog *)

Lemma dict_Forall_set {V} (P : string * V -> Prop) k v (d : PyDict.t V) :
  Forall P d -> P (k, v) -> Forall P (PyDict.set k v d).
Proof.
  intros Hd Hkv. induction Hd as [|[k' v'] d Hx Hd IH]; simpl.
  - by constructor.
  - destruct (String.eqb k k'); by constructor.
Qed.

Lemma catalog_wf_register spec replace c :
  McpCatalog.wf c -> McpCatalog.wf (snd (McpCatalog.register spec replace c)).
Proof.
  intros [Hk Hn]. unfold McpCatalog.register.
  destruct (_ && _); simpl; [done|]. split.
  - by apply dict_wf_set.
  - by apply dict_Forall_set.
Qed.

Lemma catalog_contains_register spec replace c :
  PyDict.contains (FunctionSpec.name spec)
    (snd (McpCatalog.register spec replace c)) = true.
Proof.
  unfold McpCatalog.register.
  destruct (PyDict.contains (FunctionSpec.name spec) c) eqn:Hc;
    destruct replace; simpl; try done; apply dict_contains_set.
Qed.

Lemma FunctionSpec_new_blank n d i o t :
  FunctionSpec.new n d i o t
  = (if blank n
     then Raise (ValueError "Function name cannot be empty.")
     else if blank d
     then Raise (ValueError "Function description cannot be empty.")
     else Ok (FunctionSpec.mk (strip n) d i o t)).
Proof. unfold FunctionSpec.new. by rewrite !strip_blank. Qed.

(** C10: constructing a FunctionSpec raises exactly when the name or the
    description is blank (empty or whitespace only); otherwise the stored
    name is the given name without its leading and trailing whitespace, so
    that a second spec whose name differs by surrounding whitespace only is
    refused by a catalog that holds the first. *)
Theorem FunctionSpec_new_contract name description inputs outputs tags :
  (is_ok (FunctionSpec.new name description inputs outputs tags) = false
   <-> blank name = true \/ blank description = true)
  /\ FunctionSpec.new name description inputs outputs tags
     = (if blank name
        then Raise (ValueError "Function name cannot be empty.")
        else if blank description
        then Raise (ValueError "Function description cannot be empty.")
        else Ok (FunctionSpec.mk (strip name) description inputs outputs tags))
  /\ (exists l r, name = l +:+ strip name +:+ r
                  /\ blank l = true /\ blank r = true
                  /\ starts_space (strip name) = false
                  /\ ends_space (strip name) = false)
  /\ (forall name2 description2 inputs2 outputs2 tags2 spec spec2 c,
        FunctionSpec.new name description inputs outputs tags = Ok spec ->
        FunctionSpec.new name2 description2 inputs2 outputs2 tags2 = Ok spec2 ->
        strip name2 = strip name ->
        exists msg,
          McpCatalog.register spec2 false (snd (McpCatalog.register spec false c))
          = (Raise (ValueError msg), snd (McpCatalog.register spec false c))).
Proof.
  pose proof FunctionSpec_new_blank as Hnew.
  split; [|split; [apply Hnew|split; [apply strip_spec|]]].
  - rewrite Hnew. destruct (blank name), (blank description); simpl;
      intuition congruence.
  - intros name2 description2 inputs2 outputs2 tags2 spec spec2 c H1 H2 Hs.
    rewrite Hnew in H1, H2.
    destruct (blank name); [done|]. destruct (blank description); [done|].
    destruct (blank name2); [done|]. destruct (blank description2); [done|].
    injection H1 as <-. injection H2 as <-.
    pose proof (catalog_contains_register
      (FunctionSpec.mk (strip name) description inputs outputs tags) false c)
      as Hc.
    simpl in Hc. unfold McpCatalog.register at 1. simpl FunctionSpec.name.
    rewrite Hs, Hc. simpl. by eexists.
Qed.

Lemma FunctionSpec_new_contract_witness :
  exists msg,
    McpCatalog.register (FunctionSpec.mk "a" "second" [] [] []) false
      (snd (McpCatalog.register (FunctionSpec.mk "a" "first" [] [] []) false
              McpCatalog.new))
    = (Raise (ValueError msg),
       snd (McpCatalog.register (FunctionSpec.mk "a" "first" [] [] []) false
              McpCatalog.new)).
Proof.
  apply (proj2 (proj2 (proj2
           (FunctionSpec_new_contract " a" "first" [] [] [])))
           "a  " "second" [] [] []);
    reflexivity.
Defined.

(** C6: registering a spec whose name the catalog already holds raises when
    [replace] is false and leaves the catalog as it was; with [replace] true
    it succeeds, the name now maps to the new spec, and [describe()] is the
    former description with the record of that name replaced by the new
    spec's. *)
Theorem catalog_register_duplicate (spec : FunctionSpec.t) (c : McpCatalog.t) :
  McpCatalog.wf c ->
  PyDict.contains (FunctionSpec.name spec) c = true ->
  McpCatalog.register spec false c
  = (Raise (ValueError ("Function '" +:+ FunctionSpec.name spec
                          +:+ "' is already registered.")), c)
  /\ fst (McpCatalog.register spec true c) = Ok tt
  /\ McpCatalog.get (FunctionSpec.name spec)
       (snd (McpCatalog.register spec true c)) = Ok spec
  /\ McpCatalog.describe (snd (McpCatalog.register spec true c))
     = map (fun s => FunctionSpec.to_dict
                       (if String.eqb (FunctionSpec.name s)
                                      (FunctionSpec.name spec)
                        then spec else s))
           (PyDict.values c)
  /\ In (FunctionSpec.to_dict spec)
        (McpCatalog.describe (snd (McpCatalog.register spec true c)))
  /\ McpCatalog.wf (snd (McpCatalog.register spec true c)).
Proof.
  intros Hwf Hc. pose proof (catalog_wf_register spec true c Hwf) as Hwf'.
  destruct Hwf as [Hk Hn].
  unfold McpCatalog.register in *. rewrite Hc in *. simpl in *.
  unfold McpCatalog.get, McpCatalog.describe. rewrite dict_get_set_eq.
  do 3 (split; [done|]). split; [|split; [|exact Hwf']].
  - rewrite (dict_set_present _ _ _ Hk Hc). unfold PyDict.values.
    rewrite !map_map. apply map_ext_in. intros [k s] Hin.
    rewrite Forall_forall in Hn. apply list_elem_of_In, Hn in Hin.
    simpl in *. subst k. by destruct (String.eqb _ _).
  - apply in_map. unfold PyDict.values.
    change spec with (snd (FunctionSpec.name spec, spec)) at 1.
    apply in_map, dict_get_In, dict_get_set_eq.
Qed.

Lemma catalog_register_duplicate_witness :
  McpCatalog.describe
    (snd (McpCatalog.register (FunctionSpec.mk "f" "new" [] [] []) true
            [("f", FunctionSpec.mk "f" "old" [] [] [])]))
  = [FunctionSpec.to_dict (FunctionSpec.mk "f" "new" [] [] [])].
Proof.
  refine (proj1 (proj2 (proj2 (proj2
    (catalog_register_duplicate (FunctionSpec.mk "f" "new" [] [] [])
       [("f", FunctionSpec.mk "f" "old" [] [] [])] _ _))))).
  - split; [apply NoDup_singleton | by repeat constructor].
  - reflexivity.
Defined.

(** ** Layer queries *)

Lemma leb_shift (a b o : Z) : (a <=? b) = (a - o <=? b - o).
Proof.
  destruct (Z.leb_spec a b), (Z.leb_spec (a - o) (b - o)); try done; lia.
Qed.

Lemma ge_steady (e : MemoryEntry.t) (since : datetime.t) :
  datetime.aware since = true -> steady since e = true ->
  datetime.ge (MemoryEntry.timestamp e) since
  = match datetime.utcoffset (MemoryEntry.timestamp e) with
    | Some _ => Ok (at_or_after since e)
    | None =>
        Raise (TypeError "can't compare offset-naive and offset-aware datetimes")
    end.
Proof.
  unfold datetime.aware, steady, shares_zone, at_or_after, instant, datetime.ge.
  destruct (datetime.utcoffset since) as [ob|] eqn:Hs; [intros _|done].
  case_bool_decide as Hz; simpl.
  - intros Ho. apply bool_decide_eq_true in Ho. rewrite Ho. simpl.
    by rewrite <- leb_shift.
  - intros _. destruct (datetime.utcoffset (MemoryEntry.timestamp e)) as [oa|];
      [|done]. simpl.
    destruct (Z.eqb_spec oa ob) as [->|_]; [|done]. by rewrite <- leb_shift.
Qed.

Lemma since_filter_aware since es :
  datetime.aware since = true ->
  Forall (fun e => aware_entry e = true) es ->
  Forall (fun e => steady since e = true) es ->
  MemoryLayer.since_filter since es = Ok (List.filter (at_or_after since) es).
Proof.
  intros Hs Hes Hst. induction Hes as [|e es He Hes IH]; simpl; [done|].
  apply Forall_cons in Hst as [Hst1 Hst].
  rewrite (IH Hst), (ge_steady e since Hs Hst1).
  unfold aware_entry, datetime.aware in He.
  by destruct (datetime.utcoffset (MemoryEntry.timestamp e)).
Qed.

Lemma ge_raises a b e :
  datetime.ge a b = Raise e
  -> e = TypeError "can't compare offset-naive and offset-aware datetimes".
Proof.
  unfold datetime.ge. repeat case_match; congruence.
Qed.

Lemma since_filter_naive since es :
  datetime.aware since = true ->
  Exists (fun e => aware_entry e = false /\ shares_zone since e = false) es ->
  MemoryLayer.since_filter since es
  = Raise (TypeError "can't compare offset-naive and offset-aware datetimes").
Proof.
  intros Hs Hes. unfold aware_entry, shares_zone, datetime.aware in *.
  induction Hes as [e es [He Hz]|e es Hes IH]; simpl.
  - unfold datetime.ge. rewrite Hz.
    destruct (datetime.utcoffset (MemoryEntry.timestamp e)); [done|].
    by destruct (datetime.utcoffset since).
  - rewrite IH. destruct (datetime.ge _ _) as [b|x] eqn:Hge; [done|].
    by rewrite (ge_raises _ _ _ Hge).
Qed.

Lemma since_filter_shared since es :
  Forall (fun e => shares_zone since e = true) es ->
  MemoryLayer.since_filter since es
  = Ok (List.filter (reads_at_or_after since) es).
Proof.
  intros Hes. induction Hes as [|e es He Hes IH]; simpl; [done|].
  rewrite IH. unfold datetime.ge. unfold shares_zone in He. by rewrite He.
Qed.

(** C4, as the code has it: [query()] without [since] is [all()]; a naive
    [since] raises; an aware [since] over entries whose timestamps are all
    aware, none of them a reading of the tzinfo object of [since] at another
    offset, returns the entries at or after [since], in insertion order; and
    an aware [since] over a layer holding a naive timestamp that does not
    carry the tzinfo object of [since] raises. *)
Theorem query_contract (l : MemoryLayer.t) :
  MemoryLayer.query None l = Ok (MemoryLayer.all l)
  /\ (forall since, datetime.aware since = false ->
        MemoryLayer.query (Some since) l
        = Raise (ValueError "'since' must be timezone-aware."))
  /\ (forall since, datetime.aware since = true ->
        Forall (fun e => aware_entry e = true) (MemoryLayer.entries l) ->
        Forall (fun e => steady since e = true) (MemoryLayer.entries l) ->
        MemoryLayer.query (Some since) l
        = Ok (List.filter (at_or_after since) (MemoryLayer.all l)))
  /\ (forall since, datetime.aware since = true ->
        Exists (fun e => aware_entry e = false /\ shares_zone since e = false)
          (MemoryLayer.entries l) ->
        exists msg, MemoryLayer.query (Some since) l = Raise (TypeError msg)).
Proof.
  unfold MemoryLayer.query. split; [done|]. split; [|split].
  - by intros since ->.
  - intros since Hs Hes Hst. rewrite Hs. simpl. by apply since_filter_aware.
  - intros since Hs Hes. rewrite Hs. simpl. eexists.
    by apply since_filter_naive.
Qed.

(** The layer of [test_memory_layer_query_filters_by_timestamp], with the
    entries stored out of timestamp order and one of them in another time
    zone. *)
Lemma query_contract_witness :
  MemoryLayer.query (Some (datetime.now_utc 20))
    (MemoryLayer.mk "legal_evidence"
       [ MemoryEntry.mk "legal_evidence" "third" "sensor" (datetime.now_utc 30);
         MemoryEntry.mk "legal_evidence" "first" "sensor" (datetime.now_utc 10);
         MemoryEntry.mk "legal_evidence" "second" "sensor"
           (datetime.mk 27 (Some 1%nat) (Some 7)) ])
  = Ok [ MemoryEntry.mk "legal_evidence" "third" "sensor" (datetime.now_utc 30);
         MemoryEntry.mk "legal_evidence" "second" "sensor"
           (datetime.mk 27 (Some 1%nat) (Some 7)) ].
Proof.
  refine (proj1 (proj2 (proj2 (query_contract _))) _ _ _ _).
  - reflexivity.
  - by repeat constructor.
  - by repeat constructor.
Defined.

(** C4, as stated, fails on a layer that holds an entry with a naive
    timestamp: the query with an aware [since] raises instead of returning
    the later entries. *)
Lemma query_naive_entry_raises :
  MemoryLayer.query (Some (datetime.now_utc 0))
    (MemoryLayer.mk "a" [MemoryEntry.mk "a" "c" "s" (datetime.mk 5 None None)])
  = Raise (TypeError "can't compare offset-naive and offset-aware datetimes").
Proof. reflexivity. Qed.

(** ** Recommendations *)

Lemma recommend_flags audits recommendations :
  OperatorCore.recommend audits recommendations
  = recommendations ++ flat_map flags audits.
Proof.
  revert recommendations.
  induction audits as [|a audits IH]; intros recs; simpl.
  - by rewrite app_nil_r.
  - rewrite IH. unfold flags at 2.
    destruct (ConnectorAudit.produced a =? 0);
      destruct (ConnectorAudit.alerts a) eqn:Ha; simpl;
      by rewrite <- ?app_assoc.
Qed.

Lemma mentions_no_entries name : mentions name (OperatorCore.no_entries name).
Proof. by eexists _, _. Qed.

Lemma mentions_emitted_alerts name n :
  mentions name (OperatorCore.emitted_alerts name n).
Proof. by eexists _, _. Qed.

(** C7: the recommendations hold, for each connector of the report that
    produced nothing, a string that mentions it; for each connector with
    alerts, a string that mentions it; they are the one nominal message when
    no connector does either; and they are never empty. *)
Theorem generate_recommendations_surfaces (report : AuditReport.t) :
  (forall a, In a (AuditReport.connectors report) ->
     ConnectorAudit.produced a = 0 ->
     In (OperatorCore.no_entries (ConnectorAudit.name a))
        (OperatorCore.generate_recommendations report)
     /\ mentions (ConnectorAudit.name a)
          (OperatorCore.no_entries (ConnectorAudit.name a)))
  /\ (forall a, In a (AuditReport.connectors report) ->
        ConnectorAudit.alerts a <> [] ->
        In (OperatorCore.emitted_alerts (ConnectorAudit.name a)
              (length (ConnectorAudit.alerts a)))
           (OperatorCore.generate_recommendations report)
        /\ mentions (ConnectorAudit.name a)
             (OperatorCore.emitted_alerts (ConnectorAudit.name a)
                (length (ConnectorAudit.alerts a))))
  /\ ((forall a, In a (AuditReport.connectors report) ->
         ConnectorAudit.produced a <> 0 /\ ConnectorAudit.alerts a = []) ->
      OperatorCore.generate_recommendations report = [OperatorCore.nominal])
  /\ OperatorCore.generate_recommendations report <> [].
Proof.
  unfold OperatorCore.generate_recommendations.
  rewrite recommend_flags. simpl.
  set (audits := AuditReport.connectors report).
  assert (Hin : forall s, In s (flat_map flags audits) ->
            In s match flat_map flags audits with
                 | [] => flat_map flags audits ++ [OperatorCore.nominal]
                 | _ :: _ => flat_map flags audits
                 end).
  { intros s Hs. by destruct (flat_map flags audits). }
  split; [|split; [|split]].
  - intros a Ha Hp. split; [|apply mentions_no_entries].
    apply Hin, in_flat_map. exists a. split; [done|].
    unfold flags. rewrite Hp. simpl. by left.
  - intros a Ha Hal. split; [|apply mentions_emitted_alerts].
    apply Hin, in_flat_map. exists a. split; [done|].
    unfold flags. rewrite bool_decide_eq_false_2 by done.
    apply in_or_app. right. by left.
  - intros Hall. assert (flat_map flags audits = []) as ->; [|done].
    clear Hin. induction audits as [|a audits IH]; simpl; [done|].
    destruct (Hall a) as [Hp Hal]; [by left|].
    rewrite IH by (intros; apply Hall; by right).
    unfold flags. rewrite Hal. simpl.
    by destruct (Z.eqb_spec (ConnectorAudit.produced a) 0).
  - by destruct (flat_map flags audits).
Qed.

(** The report of the end-to-end scenario: [FILES] produced one entry,
    [ALERT] one alert. *)
Lemma generate_recommendations_surfaces_witness :
  In (OperatorCore.emitted_alerts "ALERT" 1)
     (OperatorCore.generate_recommendations
        (AuditReport.mk (datetime.now_utc 0)
           [ ConnectorAudit.mk "FILES" 1 [("legal_evidence", 1)] [];
             ConnectorAudit.mk "ALERT" 1 [("ingestion_alerts", 1)]
               ["dependency missing"] ])).
Proof.
  refine (proj1 (proj1 (proj2 (generate_recommendations_surfaces _))
                   (ConnectorAudit.mk "ALERT" 1 [("ingestion_alerts", 1)]
                      ["dependency missing"]) _ _)).
  - right. by left.
  - discriminate.
Defined.

(** ** Methods that leave a part of the world alone *)

Section Keeps.
Context {X : Type} (f : World -> X).

Lemma keeps_ret {A} (a : A) : keeps f (ret a).
Proof. done. Qed.

Lemma keeps_raise {A} e : keeps f (@raise A e).
Proof. done. Qed.

Lemma keeps_lift {A} (r : result A) : keeps f (lift r).
Proof. done. Qed.

Lemma keeps_bind {A B} (m : M A) (k : A -> M B) :
  keeps f m -> (forall a, keeps f (k a)) -> keeps f (bind m k).
Proof.
  intros Hm Hk w. unfold bind. specialize (Hm w).
  destruct (m w) as [[a|e] w']; simpl in *; [|done].
  by rewrite Hk.
Qed.
End Keeps.

Lemma keeps_alloc_layer l : keeps witness_side (alloc_layer l).
Proof. done. Qed.

Lemma keeps_layer_add a entry : keeps witness_side (layer_add a entry).
Proof.
  intros w. unfold layer_add. destruct (heap w !! a); [|done].
  by destruct (MemoryLayer.add entry t).
Qed.

Lemma keeps_register_layer_spec name :
  keeps witness_side (MemoryBridge._register_layer_spec name).
Proof.
  apply keeps_bind; [apply keeps_lift|]. intros spec w.
  by destruct (McpCatalog.register spec true (catalog w)).
Qed.

Lemma keeps_register_layer name :
  keeps witness_side (MemoryBridge.register_layer name).
Proof.
  intros w. unfold MemoryBridge.register_layer.
  destruct (str_not (strip name)); [done|].
  destruct (PyDict.get name (layers w)); [done|].
  revert w. apply keeps_bind; [apply keeps_alloc_layer|]. intros a.
  apply keeps_bind; [done|]. intros _.
  apply keeps_bind; [apply keeps_register_layer_spec|]. intros _.
  apply keeps_ret.
Qed.

Lemma keeps_ingest entries layer_counts alerts :
  keeps witness_side (OperatorCore.ingest entries layer_counts alerts).
Proof.
  revert layer_counts alerts.
  induction entries as [|entry rest IH]; intros layer_counts alerts; simpl.
  - apply keeps_ret.
  - apply keeps_bind; [apply keeps_register_layer|]. intros a.
    apply keeps_bind; [apply keeps_layer_add|]. intros _. apply IH.
Qed.

Lemma keeps_run_connector connector :
  keeps witness_side (OperatorCore.run_connector connector).
Proof.
  apply keeps_bind; [apply keeps_lift|]. intros entries.
  apply keeps_bind; [apply keeps_ingest|]. intros counted. apply keeps_ret.
Qed.

Lemma keeps_run_connectors connectors audits :
  keeps witness_side (OperatorCore.run_connectors connectors audits).
Proof.
  revert audits. induction connectors as [|c rest IH]; intros audits; simpl.
  - apply keeps_ret.
  - apply keeps_bind; [apply keeps_run_connector|]. intros a. apply IH.
Qed.

(** C8: whatever the bridge and the connectors, and whether the cycle
    returns a report or raises, [run_cycle()] leaves the witness log and the
    subscriber list as they were, and delivers nothing to any node. *)
Theorem run_cycle_keeps_witnesses (clock : Z) (cs : OperatorCore.t) (w : World) :
  WitnessNetwork.log (witnesses (snd (OperatorCore.run_cycle clock cs w)))
  = WitnessNetwork.log (witnesses w)
  /\ WitnessNetwork.subscribers (witnesses (snd (OperatorCore.run_cycle clock cs w)))
     = WitnessNetwork.subscribers (witnesses w)
  /\ nodes (snd (OperatorCore.run_cycle clock cs w)) = nodes w.
Proof.
  assert (H : keeps witness_side (OperatorCore.run_cycle clock cs)).
  { apply keeps_bind; [apply keeps_run_connectors|]. intros a. apply keeps_ret. }
  specialize (H w). unfold witness_side in H. injection H as Hw Hn.
  by rewrite Hw, Hn.
Qed.

(** ** Registering layers *)

Lemma register_layer_spec_run name w :
  MemoryBridge._register_layer_spec name w
  = (Ok tt,
     with_catalog
       (PyDict.set (FunctionSpec.name (fetch_spec name)) (fetch_spec name)
          (catalog w)) w).
Proof.
  unfold MemoryBridge._register_layer_spec, bind, lift.
  rewrite FunctionSpec_new_blank, strip_fetch_name.
  unfold blank. rewrite !append_cons. simpl.
  unfold McpCatalog.register. by rewrite andb_false_r.
Qed.

(** What [register_layer] does with a name that is not blank. *)
Lemma register_layer_run name w :
  blank name = false ->
  MemoryBridge.register_layer name w
  = match PyDict.get name (layers w) with
    | Some a => (Ok a, w)
    | None =>
        (Ok (length (heap w)),
         mkWorld (heap w ++ [MemoryLayer.new name]) (nodes w)
           (PyDict.set name (length (heap w)) (layers w)) (witnesses w)
           (PyDict.set (FunctionSpec.name (fetch_spec name)) (fetch_spec name)
              (catalog w)))
    end.
Proof.
  intros Hb. unfold MemoryBridge.register_layer.
  rewrite strip_blank, Hb. destruct (PyDict.get name (layers w)); [done|].
  unfold bind at 1. unfold alloc_layer. unfold bind at 1.
  unfold bind at 1. by rewrite register_layer_spec_run.
Qed.

Lemma register_layer_blank name w :
  blank name = true ->
  MemoryBridge.register_layer name w
  = (Raise (ValueError "Layer name cannot be empty."), w).
Proof.
  intros Hb. unfold MemoryBridge.register_layer. by rewrite strip_blank, Hb.
Qed.

Lemma layer_entries_alloc n name w a :
  wf_world w ->
  PyDict.get name (layers w) = None ->
  layer_entries n
    (mkWorld (heap w ++ [MemoryLayer.new name]) (nodes w)
       (PyDict.set name (length (heap w)) (layers w)) (witnesses w) a)
  = if String.eqb name n then Some [] else layer_entries n w.
Proof.
  intros Hwf Hnone. unfold layer_entries. simpl.
  destruct (String.eqb_spec name n) as [<-|Hne].
  - rewrite dict_get_set_eq. by rewrite list_lookup_middle.
  - rewrite dict_get_set_ne by done.
    destruct (PyDict.get n (layers w)) as [a'|] eqn:Hg; [|done].
    destruct (Hwf _ _ Hg) as (l & Hl & _).
    by rewrite (lookup_app_l_Some _ _ _ _ Hl), Hl.
Qed.

(** Registering a layer files it under its name, keeps what is stored, and
    keeps the world well formed. *)
Lemma register_layer_ok name w :
  blank name = false -> wf_world w ->
  exists a w1,
    MemoryBridge.register_layer name w = (Ok a, w1)
    /\ PyDict.get name (layers w1) = Some a
    /\ wf_world w1
    /\ (forall n, stored n w1 = stored n w)
    /\ (forall n, PyDict.contains n (layers w1)
                  = PyDict.contains n (layers w) || String.eqb name n).
Proof.
  intros Hb Hwf. rewrite (register_layer_run _ _ Hb).
  destruct (PyDict.get name (layers w)) as [a|] eqn:Hg.
  - exists a, w. repeat split; try done.
    intros n. destruct (String.eqb_spec name n) as [<-|_].
    + unfold PyDict.contains. by rewrite Hg.
    + by rewrite orb_false_r.
  - eexists _, _. split; [done|]. simpl. split; [apply dict_get_set_eq|].
    split; [|split].
    + intros n a Hn. simpl in *.
      destruct (String.eqb_spec name n) as [<-|Hne].
      * rewrite dict_get_set_eq in Hn. injection Hn as <-.
        exists (MemoryLayer.new name). by rewrite list_lookup_middle.
      * rewrite dict_get_set_ne in Hn by done.
        destruct (Hwf _ _ Hn) as (l & Hl & Hname). exists l.
        by rewrite (lookup_app_l_Some _ _ _ _ Hl).
    + intros n. unfold stored. rewrite layer_entries_alloc by done.
      destruct (String.eqb_spec name n) as [<-|_]; [|done].
      unfold layer_entries. by rewrite Hg.
    + intros n. unfold PyDict.contains.
      destruct (String.eqb_spec name n) as [<-|Hne].
      * rewrite dict_get_set_eq. by rewrite orb_true_r.
      * rewrite dict_get_set_ne by done. by rewrite orb_false_r.
Qed.

(** ** Adding entries *)

Lemma layer_add_run a entry w l :
  heap w !! a = Some l ->
  MemoryLayer.name l = MemoryEntry.layer entry ->
  layer_add a entry w
  = (Ok tt,
     with_heap (<[a := MemoryLayer.mk (MemoryLayer.name l)
                          (MemoryLayer.entries l ++ [entry])]> (heap w)) w).
Proof.
  intros Hl Hn. unfold layer_add, MemoryLayer.add.
  by rewrite Hl, Hn, String.eqb_refl.
Qed.

(** Adding an entry to the layer filed under its name stores it there,
    after what was stored, and nowhere else. *)
Lemma layer_add_ok a entry w :
  wf_world w ->
  PyDict.get (MemoryEntry.layer entry) (layers w) = Some a ->
  exists w1,
    layer_add a entry w = (Ok tt, w1)
    /\ wf_world w1
    /\ layers w1 = layers w
    /\ catalog w1 = catalog w
    /\ (forall n, stored n w1
                  = stored n w ++ (if on_layer n entry then [entry] else [])).
Proof.
  intros Hwf Hg. destruct (Hwf _ _ Hg) as (l & Hl & Hname).
  rewrite (layer_add_run _ _ _ _ Hl Hname). eexists. split; [done|].
  pose proof (lookup_lt_Some _ _ _ Hl) as Hlt.
  split; [|split; [done|split; [done|]]].
  - intros n a' Hn. simpl in *. destruct (Hwf _ _ Hn) as (l' & Hl' & Hname').
    destruct (decide (a' = a)) as [->|Hne].
    + rewrite list_lookup_insert_eq by done. eexists. split; [done|]. simpl.
      congruence.
    + rewrite list_lookup_insert_ne by done. by exists l'.
  - intros n. unfold stored, layer_entries, on_layer. simpl.
    destruct (String.eqb_spec (MemoryEntry.layer entry) n) as [<-|Hne].
    + rewrite Hg, Hl. by rewrite list_lookup_insert_eq.
    + rewrite app_nil_r.
      destruct (PyDict.get n (layers w)) as [a'|] eqn:Hn; [|done].
      destruct (decide (a' = a)) as [->|Hne'].
      * destruct (Hwf _ _ Hn) as (l' & Hl' & Hname'). congruence.
      * by rewrite list_lookup_insert_ne.
Qed.

(** ** The ingestion loop *)

Lemma count_on_cons n e entries :
  count_on n (e :: entries)
  = (if on_layer n e then 1 else 0) + count_on n entries.
Proof.
  unfold count_on. simpl. destruct (on_layer n e); simpl length; lia.
Qed.

Lemma count_on_nonneg n entries : 0 <= count_on n entries.
Proof. unfold count_on. lia. Qed.

Lemma tally_get n entries counts :
  PyDict.get n (tally entries counts)
  = match PyDict.get n counts with
    | Some x => Some (x + count_on n entries)
    | None => if count_on n entries =? 0 then None
              else Some (count_on n entries)
    end.
Proof.
  revert counts.
  induction entries as [|e entries IH]; intros counts.
  - simpl. destruct (PyDict.get n counts); [f_equal; unfold count_on; simpl; lia|done].
  - unfold tally in *. cbn [fold_left]. rewrite IH, count_on_cons.
    unfold on_layer.
    pose proof (count_on_nonneg n entries) as Hnn.
    destruct (String.eqb_spec (MemoryEntry.layer e) n) as [<-|Hne].
    + rewrite dict_get_set_eq.
      destruct (PyDict.get (MemoryEntry.layer e) counts); simpl default.
      * f_equal; lia.
      * destruct (Z.eqb_spec (1 + count_on (MemoryEntry.layer e) entries) 0);
          [lia|]. f_equal; lia.
    + by rewrite dict_get_set_ne.
Qed.

Lemma bind_ok {A B} (m : M A) (k : A -> M B) w a w1 :
  m w = (Ok a, w1) -> bind m k w = k a w1.
Proof. intros H. unfold bind. by rewrite H. Qed.

Lemma bind_raise {A B} (m : M A) (k : A -> M B) w e w1 :
  m w = (Raise e, w1) -> bind m k w = (Raise e, w1).
Proof. intros H. unfold bind. by rewrite H. Qed.

Lemma ingest_ok entries counts alerts w :
  wf_world w ->
  Forall (fun e => blank (MemoryEntry.layer e) = false) entries ->
  exists w',
    OperatorCore.ingest entries counts alerts w
    = (Ok (tally entries counts, alerts ++ alert_contents entries), w')
    /\ wf_world w'
    /\ (forall n, stored n w' = stored n w ++ List.filter (on_layer n) entries)
    /\ (forall n, PyDict.contains n (layers w')
                  = PyDict.contains n (layers w)
                    || existsb (on_layer n) entries).
Proof.
  intros Hwf Hes. revert counts alerts w Hwf.
  induction Hes as [|e es He Hes IH]; intros counts alerts w Hwf.
  - exists w. unfold alert_contents. simpl. rewrite app_nil_r.
    repeat split; try done.
    + intros n. by rewrite app_nil_r.
    + intros n. by rewrite orb_false_r.
  - destruct (register_layer_ok _ _ He Hwf) as (a & w1 & Hr & Hg & Hwf1 & Hs1 & Hc1).
    destruct (layer_add_ok _ _ _ Hwf1 Hg) as (w2 & Ha & Hwf2 & Hl2 & _ & Hs2).
    cbn [OperatorCore.ingest]. rewrite (bind_ok _ _ _ _ _ Hr).
    rewrite (bind_ok _ _ _ _ _ Ha).
    match goal with
    | |- context [OperatorCore.ingest es ?c ?al w2] =>
        destruct (IH c al w2 Hwf2) as (w' & Hi & Hwf' & Hs' & Hc')
    end.
    exists w'. rewrite Hi. split; [|split; [done|split]].
    + f_equal. f_equal. unfold alert_contents, on_layer. simpl.
      destruct (String.eqb _ "ingestion_alerts"); simpl; [|done].
      by rewrite <- app_assoc.
    + intros n. rewrite Hs', Hs2, Hs1, <- app_assoc. f_equal. simpl.
      by destruct (on_layer n e).
    + intros n. rewrite Hc', Hl2, Hc1. simpl. unfold on_layer at 2.
      by rewrite orb_assoc.
Qed.

Lemma run_connector_ok c w :
  wf_world w -> gathers_ok c ->
  exists w',
    OperatorCore.run_connector c w = (Ok (audit_of c), w')
    /\ wf_world w'
    /\ (forall n, stored n w'
                  = stored n w ++ List.filter (on_layer n) (gathered c))
    /\ (forall n, PyDict.contains n (layers w')
                  = PyDict.contains n (layers w)
                    || existsb (on_layer n) (gathered c)).
Proof.
  intros Hwf [Hok Hes]. unfold OperatorCore.run_connector, audit_of.
  unfold gathered in *. destruct (Connector.gather c) as [entries|]; [|done].
  destruct (ingest_ok entries PyDict.empty [] w Hwf Hes)
    as (w' & Hi & Hwf' & Hs' & Hc').
  exists w'. split; [|done]. unfold bind at 1, lift.
  by rewrite (bind_ok _ _ _ _ _ Hi).
Qed.

Lemma run_connectors_ok cs audits w :
  wf_world w -> Forall gathers_ok cs ->
  exists w',
    OperatorCore.run_connectors cs audits w
    = (Ok (audits ++ map audit_of cs), w')
    /\ wf_world w'
    /\ (forall n, stored n w'
                  = stored n w
                    ++ List.filter (on_layer n) (concat (map gathered cs)))
    /\ (forall n, PyDict.contains n (layers w')
                  = PyDict.contains n (layers w)
                    || existsb (on_layer n) (concat (map gathered cs))).
Proof.
  intros Hwf Hcs. revert audits w Hwf.
  induction Hcs as [|c cs Hc Hcs IH]; intros audits w Hwf.
  - exists w. simpl. rewrite app_nil_r. repeat split; try done.
    + intros n. by rewrite app_nil_r.
    + intros n. by rewrite orb_false_r.
  - destruct (run_connector_ok c w Hwf Hc) as (w1 & Hr & Hwf1 & Hs1 & Hc1).
    destruct (IH (audits ++ [audit_of c]) w1 Hwf1) as (w' & Hrs & Hwf' & Hs' & Hc').
    exists w'. cbn [OperatorCore.run_connectors].
    rewrite (bind_ok _ _ _ _ _ Hr), Hrs. split; [|split; [done|split]].
    + by rewrite <- app_assoc.
    + intros n. rewrite Hs', Hs1. simpl. by rewrite List.filter_app, app_assoc.
    + intros n. rewrite Hc', Hc1. simpl. by rewrite existsb_app, orb_assoc.
Qed.

Lemma wf_world_fresh : wf_world MemoryBridge.fresh.
Proof. intros n a Hn. done. Qed.

Lemma layer_entries_stored n w :
  wf_world w -> PyDict.contains n (layers w) = true ->
  layer_entries n w = Some (stored n w).
Proof.
  unfold stored, layer_entries, PyDict.contains. intros Hwf Hc.
  destruct (PyDict.get n (layers w)) as [a|] eqn:Hg; [|done].
  destruct (Hwf _ _ Hg) as (l & Hl & _). by rewrite Hl.
Qed.

(** C9: when the cycle runs to its end, each connector's audit counts all
    its entries in [produced], counts them per layer in [layer_counts]
    (the sentinel layer like any other), and lists in [alerts] the contents
    of its entries on the sentinel layer, in entry order; every layer,
    the sentinel one included, exists afterwards and holds what it held
    followed by the entries gathered for it. *)
Theorem run_cycle_ingests_alerts (clock : Z) (cs : OperatorCore.t) (w : World) :
  wf_world w ->
  Forall gathers_ok (PyDict.values cs) ->
  exists report w',
    OperatorCore.run_cycle clock cs w = (Ok report, w')
    /\ Forall2
         (fun c a =>
            ConnectorAudit.name a = Connector.name c
            /\ ConnectorAudit.produced a = Z.of_nat (length (gathered c))
            /\ ConnectorAudit.alerts a = alert_contents (gathered c)
            /\ forall n,
                 PyDict.get n (ConnectorAudit.layer_counts a)
                 = if count_on n (gathered c) =? 0 then None
                   else Some (count_on n (gathered c)))
         (PyDict.values cs) (AuditReport.connectors report)
    /\ (forall n,
          stored n w'
          = stored n w
            ++ List.filter (on_layer n)
                 (concat (map gathered (PyDict.values cs))))
    /\ (forall n,
          existsb (on_layer n) (concat (map gathered (PyDict.values cs)))
          = true ->
          layer_entries n w' = Some (stored n w')).
Proof.
  intros Hwf Hcs.
  destruct (run_connectors_ok _ [] w Hwf Hcs) as (w' & Hr & Hwf' & Hs & Hc).
  eexists _, w'. unfold OperatorCore.run_cycle.
  rewrite (bind_ok _ _ _ _ _ Hr). split; [done|]. simpl.
  split; [|split; [done|]].
  - clear. induction (PyDict.values cs) as [|c l IH]; constructor; [|done].
    unfold audit_of. simpl. repeat split. intros n. by rewrite tally_get.
  - intros n Hn. apply layer_entries_stored; [done|].
    rewrite Hc, Hn. apply orb_true_r.
Qed.

Lemma run_cycle_ingests_alerts_witness :
  exists report w',
    OperatorCore.run_cycle 0 alert_operator MemoryBridge.fresh = (Ok report, w')
    /\ map ConnectorAudit.alerts (AuditReport.connectors report)
       = [[]; ["dependency missing"]]
    /\ layer_entries "ingestion_alerts" w'
       = Some [entry_at "ingestion_alerts" "dependency missing"].
Proof.
  destruct (run_cycle_ingests_alerts 0 alert_operator MemoryBridge.fresh)
    as (report & w' & Hrun & _).
  - apply wf_world_fresh.
  - by repeat constructor.
  - exists report, w'. split; [exact Hrun|].
    vm_compute in Hrun. injection Hrun as <- <-. by split.
Defined.

(** A connector that raises in [gather()] ends the cycle: when the
    connectors before it ran to their end, the cycle raises what it raised,
    whatever connectors come after it. *)
Lemma run_connectors_raises pre c post e audits w :
  wf_world w -> Forall gathers_ok pre ->
  Connector.gather c = Raise e ->
  fst (OperatorCore.run_connectors (pre ++ c :: post) audits w) = Raise e.
Proof.
  intros Hwf Hpre Hc. revert audits w Hwf.
  induction Hpre as [|c0 pre Hc0 Hpre IH]; intros audits w Hwf.
  - simpl. unfold bind, OperatorCore.run_connector, bind, lift.
    by rewrite Hc.
  - destruct (run_connector_ok c0 w Hwf Hc0) as (w1 & Hr & Hwf1 & _).
    simpl. rewrite (bind_ok _ _ _ _ _ Hr). by apply IH.
Qed.

Lemma run_cycle_raises clock cs pre c post e w :
  wf_world w -> PyDict.values cs = pre ++ c :: post ->
  Forall gathers_ok pre -> Connector.gather c = Raise e ->
  fst (OperatorCore.run_cycle clock cs w) = Raise e.
Proof.
  intros Hwf Hcs Hpre Hc. unfold OperatorCore.run_cycle. rewrite Hcs.
  pose proof (run_connectors_raises pre c post e [] w Hwf Hpre Hc) as Hr.
  unfold bind.
  destruct (OperatorCore.run_connectors _ _ _) as [[a|e'] w']; simpl in *;
    congruence.
Qed.

(** C1, on three connectors of which the second raises in [gather()]: the
    cycle raises what the connector raised and returns no report; the first
    connector's entry is already stored and the third connector never ran. *)
Theorem run_cycle_gather_failure_aborts :
  fst (OperatorCore.run_cycle 0 failing_operator MemoryBridge.fresh)
  = Raise (Exception "boom")
  /\ stored "x" (snd (OperatorCore.run_cycle 0 failing_operator MemoryBridge.fresh))
     = [entry_at "x" "one"]
  /\ stored "y" (snd (OperatorCore.run_cycle 0 failing_operator MemoryBridge.fresh))
     = [].
Proof. by vm_compute. Qed.

(** ** Broadcasts *)

Lemma apply_update_other node entry o w :
  node <> o -> nodes (snd (apply_update node entry w)) !! o = nodes w !! o.
Proof.
  intros Hne. unfold apply_update. destruct (nodes w !! node); [|done].
  simpl. by rewrite list_lookup_insert_ne.
Qed.

Lemma deliver_origin entry o subscribers w :
  nodes (snd (deliver entry (Some o) subscribers w)) !! o = nodes w !! o.
Proof.
  revert w. induction subscribers as [|node rest IH]; intros w; [done|].
  cbn [deliver]. unfold bind. destruct (Nat.eqb_spec node o) as [->|Hne].
  - simpl. apply IH.
  - pose proof (apply_update_other node entry o w Hne) as Hk.
    destruct (apply_update node entry w) as [[[]|e] w1]; simpl in *; [|done].
    by rewrite IH.
Qed.

Lemma deliver_witnesses entry origin subscribers w :
  witnesses (snd (deliver entry origin subscribers w)) = witnesses w.
Proof.
  revert w. induction subscribers as [|node rest IH]; intros w; [done|].
  cbn [deliver]. unfold bind.
  assert (Hk : forall w, witnesses (snd (apply_update node entry w)) = witnesses w).
  { intros w0. unfold apply_update. by destruct (nodes w0 !! node). }
  destruct origin as [o|]; [destruct (Nat.eqb node o)|]; simpl;
    try apply IH;
    specialize (Hk w);
    destruct (apply_update node entry w) as [[[]|e] w1]; simpl in *;
    try done; by rewrite IH.
Qed.

(** A broadcast appends its entry to the log and delivers nothing to the
    node it came from. *)
Lemma broadcast_log_origin entry o w :
  WitnessNetwork.log (witnesses (snd (broadcast entry (Some o) w)))
  = WitnessNetwork.log (witnesses w) ++ [entry]
  /\ nodes (snd (broadcast entry (Some o) w)) !! o = nodes w !! o.
Proof.
  unfold broadcast. by rewrite deliver_witnesses, deliver_origin.
Qed.

(** C3: two nodes registered with the witness network of a fresh fusion
    loop, [A] with pending entries [e1; e2] on one layer and [B] with none:
    after one cycle over both, that layer holds [e1; e2], [A] has received
    nothing, [B] has received [e1; e2], and the log is [e1; e2]. *)
Theorem fusion_cycle_two_nodes (nameA nameB : string) (e1 e2 : MemoryEntry.t) :
  MemoryEntry.layer e1 = MemoryEntry.layer e2 ->
  exists a b w',
    fusion_scenario nameA nameB e1 e2 MemoryBridge.fresh = (Ok (a, b), w')
    /\ a <> b
    /\ WitnessNetwork.subscribers (witnesses w') = [a; b]
    /\ layer_entries (MemoryEntry.layer e1) w' = Some [e1; e2]
    /\ Node.inbound <$> nodes w' !! a = Some []
    /\ Node.inbound <$> nodes w' !! b = Some [e1; e2]
    /\ WitnessNetwork.log (witnesses w') = [e1; e2].
Proof.
  destruct e1 as [l c1 s1 t1], e2 as [l2 c2 s2 t2]. simpl. intros <-.
  exists 0%nat, 1%nat. eexists. split.
  - unfold fusion_scenario.
    repeat (cbv -[String.eqb]; rewrite ?String.eqb_refl). reflexivity.
  - split; [done|]. split; [done|].
    unfold layer_entries. simpl. by rewrite String.eqb_refl.
Qed.

Lemma fusion_cycle_two_nodes_witness :
  exists a b w',
    fusion_scenario "A" "B" (entry_at "legal_evidence" "doc1")
      (entry_at "legal_evidence" "doc2") MemoryBridge.fresh
    = (Ok (a, b), w')
    /\ a <> b
    /\ WitnessNetwork.subscribers (witnesses w') = [a; b]
    /\ layer_entries "legal_evidence" w'
       = Some [entry_at "legal_evidence" "doc1"; entry_at "legal_evidence" "doc2"]
    /\ Node.inbound <$> nodes w' !! a = Some []
    /\ Node.inbound <$> nodes w' !! b
       = Some [entry_at "legal_evidence" "doc1"; entry_at "legal_evidence" "doc2"]
    /\ WitnessNetwork.log (witnesses w')
       = [entry_at "legal_evidence" "doc1"; entry_at "legal_evidence" "doc2"].
Proof.
  exact (fusion_cycle_two_nodes "A" "B" (entry_at "legal_evidence" "doc1")
           (entry_at "legal_evidence" "doc2") eq_refl).
Defined.

(** ** The catalog and the layers *)

Lemma dict_contains_set_mono {V} k k' (v : V) d :
  PyDict.contains k' d = true -> PyDict.contains k' (PyDict.set k v d) = true.
Proof.
  unfold PyDict.contains. destruct (String.eqb_spec k k') as [->|Hne].
  - by rewrite dict_get_set_eq.
  - by rewrite dict_get_set_ne.
Qed.

Lemma count_named_wf k c :
  McpCatalog.wf c ->
  count_named k c = if PyDict.contains k c then 1%nat else 0%nat.
Proof.
  unfold count_named, PyDict.contains. intros [Hk Hn].
  induction c as [|[k' s] c IH]; [done|].
  apply NoDup_cons in Hk as [Hk' Hk]. apply Forall_cons in Hn as [Hs Hn].
  simpl in *. subst k'. specialize (IH Hk Hn).
  rewrite (String.eqb_sym (FunctionSpec.name s) k).
  destruct (String.eqb_spec k (FunctionSpec.name s)) as [->|Hne]; [|done].
  simpl. rewrite IH.
  destruct (PyDict.get (FunctionSpec.name s) c) eqn:Hg; [|done].
  exfalso. apply Hk', list_elem_of_In.
  apply dict_get_In in Hg. change (FunctionSpec.name s) with (fst (FunctionSpec.name s, t)).
  by apply in_map.
Qed.

Lemma rstrip_id s : ends_space s = false -> rstrip s = s.
Proof.
  induction s as [|c s IH]; [done|]. simpl. destruct s as [|c' s].
  - simpl. by intros ->.
  - intros Hs. by rewrite (IH Hs).
Qed.

Lemma catalog_synced_fresh :
  McpCatalog.wf (catalog MemoryBridge.fresh) /\ catalog_synced MemoryBridge.fresh.
Proof. split; [split; [apply NoDup_nil_2|constructor]|]. by intros n Hn. Qed.

(** Registering a layer keeps the catalog in step with the layers. *)
Lemma catalog_synced_register_layer name w :
  McpCatalog.wf (catalog w) -> catalog_synced w ->
  McpCatalog.wf (catalog (snd (MemoryBridge.register_layer name w)))
  /\ catalog_synced (snd (MemoryBridge.register_layer name w)).
Proof.
  intros Hwf Hsync. destruct (blank name) eqn:Hb.
  - by rewrite register_layer_blank.
  - rewrite register_layer_run by done.
    destruct (PyDict.get name (layers w)) eqn:Hg; [done|]. simpl. split.
    + destruct Hwf as [Hk Hn]. split; [by apply dict_wf_set|].
      by apply dict_Forall_set.
    + intros n. simpl. unfold PyDict.contains at 1.
      destruct (String.eqb_spec name n) as [<-|Hne].
      * intros _. apply dict_contains_set.
      * rewrite dict_get_set_ne by done. intros Hn.
        apply dict_contains_set_mono, Hsync. exact Hn.
Qed.

(** ** The fusion loop *)

Lemma keeps_apply_update {X} (f : World -> X) node entry :
  (forall ns w, f (with_nodes ns w) = f w) ->
  keeps f (apply_update node entry).
Proof.
  intros Hf w. unfold apply_update. destruct (nodes w !! node); [|done].
  apply Hf.
Qed.

Lemma keeps_deliver {X} (f : World -> X) entry origin subscribers :
  (forall ns w, f (with_nodes ns w) = f w) ->
  keeps f (deliver entry origin subscribers).
Proof.
  intros Hf. induction subscribers as [|node rest IH]; [done|].
  cbn [deliver]. apply keeps_bind; [|by intros _].
  destruct origin as [o|]; [destruct (Nat.eqb node o)|];
    by auto using keeps_ret, keeps_apply_update.
Qed.

Lemma keeps_broadcast {X} (f : World -> X) entry origin :
  (forall ns w, f (with_nodes ns w) = f w) ->
  (forall wn w, f (with_witnesses wn w) = f w) ->
  keeps f (broadcast entry origin).
Proof.
  intros Hn Hw w. unfold broadcast. by rewrite keeps_deliver.
Qed.

Lemma keeps_fetch_updates {X} (f : World -> X) node :
  (forall ns w, f (with_nodes ns w) = f w) ->
  keeps f (fetch_updates node).
Proof.
  intros Hf w. unfold fetch_updates. destruct (nodes w !! node); [|done].
  apply Hf.
Qed.

(** The fusion loop never touches the catalog. *)
Lemma cycle_keeps_catalog nodes : keeps catalog (FusionLoop.cycle nodes).
Proof.
  induction nodes as [|node rest IH]; [done|]. cbn [FusionLoop.cycle].
  apply keeps_bind; [by apply keeps_fetch_updates|]. intros updates.
  apply keeps_bind; [|by intros _].
  induction updates as [|entry updates IHu]; [done|].
  cbn [FusionLoop.cycle_entries].
  apply keeps_bind; [done|]. intros fresh.
  apply keeps_bind.
  { intros w. unfold FusionLoop.layers_setdefault.
    by destruct (PyDict.get _ _). }
  intros layer. apply keeps_bind.
  { intros w. unfold layer_add. destruct (heap w !! layer); [|done].
    by destruct (MemoryLayer.add entry t). }
  intros _. apply keeps_bind; [by apply keeps_broadcast|]. by intros _.
Qed.

(** The fusion loop keeps the world well formed: the layers it creates
    are the very storage that [register_layer] hands out. *)
Lemma alloc_layer_wf l w :
  wf_world w -> wf_world (with_heap (heap w ++ [l]) w).
Proof.
  intros Hwf n a Hn. simpl in *. destruct (Hwf _ _ Hn) as (l' & Hl & Hname).
  exists l'. by rewrite (lookup_app_l_Some _ _ _ _ Hl).
Qed.

Lemma layers_setdefault_ok name w :
  wf_world w ->
  exists a w1,
    FusionLoop.layers_setdefault name (length (heap w))
      (with_heap (heap w ++ [MemoryLayer.new name]) w) = (Ok a, w1)
    /\ wf_world w1 /\ PyDict.get name (layers w1) = Some a.
Proof.
  intros Hwf. unfold FusionLoop.layers_setdefault. simpl.
  destruct (PyDict.get name (layers w)) as [a|] eqn:Hg.
  - eexists _, _. split; [done|]. split; [by apply alloc_layer_wf|done].
  - eexists _, _. split; [done|]. simpl. split; [|apply dict_get_set_eq].
    intros n a' Hn. simpl in *.
    destruct (String.eqb_spec name n) as [<-|Hne].
    + rewrite dict_get_set_eq in Hn. injection Hn as <-.
      exists (MemoryLayer.new name). by rewrite list_lookup_middle.
    + rewrite dict_get_set_ne in Hn by done.
      destruct (Hwf _ _ Hn) as (l & Hl & Hname). exists l.
      by rewrite (lookup_app_l_Some _ _ _ _ Hl).
Qed.

Lemma cycle_entries_wf node updates w :
  wf_world w -> wf_world (snd (FusionLoop.cycle_entries node updates w)).
Proof.
  revert w. induction updates as [|entry updates IH]; intros w Hwf; [done|].
  cbn [FusionLoop.cycle_entries].
  erewrite bind_ok by reflexivity.
  destruct (layers_setdefault_ok (MemoryEntry.layer entry) w Hwf)
    as (a & w1 & Hset & Hwf1 & Hg1).
  rewrite (bind_ok _ _ _ _ _ Hset).
  destruct (layer_add_ok a entry w1 Hwf1 Hg1) as (w2 & Ha & Hwf2 & _).
  rewrite (bind_ok _ _ _ _ _ Ha). unfold bind at 1.
  assert (Hwf3 : wf_world (snd (broadcast entry (Some node) w2))).
  { pose proof (keeps_broadcast (fun w => (heap w, layers w)) entry (Some node))
      as Hk.
    specialize (Hk (fun _ _ => eq_refl) (fun _ _ => eq_refl) w2).
    injection Hk as Hh Hl. unfold wf_world. by rewrite Hh, Hl. }
  destruct (broadcast entry (Some node) w2) as [[[]|e] w3]; simpl in *; [|done].
  by apply IH.
Qed.

Lemma cycle_wf nodes w :
  wf_world w -> wf_world (snd (FusionLoop.cycle nodes w)).
Proof.
  revert w. induction nodes as [|node rest IH]; intros w Hwf; [done|].
  cbn [FusionLoop.cycle]. unfold bind at 1.
  assert (Hwf1 : wf_world (snd (fetch_updates node w))).
  { pose proof (keeps_fetch_updates (fun w => (heap w, layers w)) node
                  (fun _ _ => eq_refl) w) as Hk.
    injection Hk as Hh Hl. unfold wf_world. by rewrite Hh, Hl. }
  destruct (fetch_updates node w) as [[updates|e] w1]; simpl in *; [|done].
  unfold bind. pose proof (cycle_entries_wf node updates w1 Hwf1) as Hwf2.
  destruct (FusionLoop.cycle_entries node updates w1) as [[[]|e] w2];
    simpl in *; [|done].
  by apply IH.
Qed.

(** C2, on a fresh bridge synchronised with one node that holds one entry
    for a layer not yet known: the layer is created and holds the entry, and
    the catalog stays empty, whereas [register_layer] of the same name files
    the spec. *)
Theorem sync_creates_layer_without_spec :
  fst (sync_scenario (entry_at "x" "doc") MemoryBridge.fresh) = Ok tt
  /\ layer_entries "x" (snd (sync_scenario (entry_at "x" "doc") MemoryBridge.fresh))
     = Some [entry_at "x" "doc"]
  /\ MemoryBridge.describe_functions
       (snd (sync_scenario (entry_at "x" "doc") MemoryBridge.fresh)) = []
  /\ PyDict.contains "memory.fetch_x"
       (catalog (snd (sync_scenario (entry_at "x" "doc") MemoryBridge.fresh)))
     = false
  /\ PyDict.contains "memory.fetch_x"
       (catalog (snd (MemoryBridge.register_layer "x" MemoryBridge.fresh)))
     = true.
Proof. by vm_compute. Qed.

(** X28: [register_layer] raises on a blank name and changes nothing; on
    any other name, over a bridge whose catalog holds the spec of each of
    its layers, two calls return the same layer object and the second
    changes nothing; for a name that does not end in whitespace the catalog
    then holds exactly one spec named [memory.fetch_] followed by the
    name. *)
Theorem register_layer_idempotent (name : string) (w : World) :
  McpCatalog.wf (catalog w) -> catalog_synced w ->
  (blank name = true ->
   MemoryBridge.register_layer name w
   = (Raise (ValueError "Layer name cannot be empty."), w))
  /\ (blank name = false ->
      exists a w',
        register_twice name w = (Ok (a, a), w')
        /\ MemoryBridge.register_layer name w = (Ok a, w')
        /\ MemoryBridge.register_layer name w' = (Ok a, w')
        /\ PyDict.get name (layers w') = Some a
        /\ (ends_space name = false ->
            count_named ("memory.fetch_" +:+ name) (catalog w') = 1%nat)).
Proof.
  intros Hwf Hsync. split; [apply register_layer_blank|]. intros Hb.
  destruct (catalog_synced_register_layer name w Hwf Hsync) as [Hwf' Hsync'].
  assert (exists a w', MemoryBridge.register_layer name w = (Ok a, w')
                       /\ PyDict.get name (layers w') = Some a)
    as (a & w' & Hr & Hg).
  { rewrite register_layer_run by done.
    destruct (PyDict.get name (layers w)) eqn:Hg; eexists _, _; split; try done.
    simpl. apply dict_get_set_eq. }
  rewrite Hr in Hwf', Hsync'. simpl in *.
  assert (Hr' : MemoryBridge.register_layer name w' = (Ok a, w')).
  { rewrite register_layer_run by done. by rewrite Hg. }
  exists a, w'. split; [|split; [done|split; [done|split; [done|]]]].
  - unfold register_twice. rewrite (bind_ok _ _ _ _ _ Hr).
    by rewrite (bind_ok _ _ _ _ _ Hr').
  - intros He. rewrite count_named_wf by done.
    rewrite <- (rstrip_id name He) at 1.
    change ("memory.fetch_" +:+ rstrip name)
      with (FunctionSpec.name (fetch_spec name)).
    rewrite Hsync'; [done|]. unfold PyDict.contains. by rewrite Hg.
Qed.

Lemma register_layer_idempotent_witness :
  exists a w',
    register_twice "legal_evidence" MemoryBridge.fresh = (Ok (a, a), w')
    /\ count_named "memory.fetch_legal_evidence" (catalog w') = 1%nat.
Proof.
  destruct (proj2 (register_layer_idempotent "legal_evidence" MemoryBridge.fresh
                     (proj1 catalog_synced_fresh) (proj2 catalog_synced_fresh))
              eq_refl)
    as (a & w' & Ht & _ & _ & _ & Hc).
  exists a, w'. split; [exact Ht|]. by apply Hc.
Defined.

(** C5: on a name that ends in whitespace the code departs from the claim:
    after two calls of [register_layer] on a new bridge, which return the
    same layer, the catalog holds no spec named [memory.fetch_] followed by
    the name; the spec is filed under the name cut short. *)
Theorem register_layer_trailing_space :
  fst (register_twice "a " MemoryBridge.fresh) = Ok (0%nat, 0%nat)
  /\ count_named "memory.fetch_a "
       (catalog (snd (register_twice "a " MemoryBridge.fresh))) = 0%nat
  /\ count_named "memory.fetch_a"
       (catalog (snd (register_twice "a " MemoryBridge.fresh))) = 1%nat.
Proof. by vm_compute. Qed.

(** X29: two layers whose names differ only in trailing whitespace get one
    spec between them: registered one after the other on a new bridge they
    are two layer objects, and the catalog holds a single spec, the one of
    the second layer, which has replaced that of the first. *)
Theorem register_layer_shared_spec (first second : string) :
  blank first = false -> blank second = false ->
  first <> second -> rstrip first = rstrip second ->
  exists w',
    register_both first second MemoryBridge.fresh = (Ok (0%nat, 1%nat), w')
    /\ heap w' = [MemoryLayer.new first; MemoryLayer.new second]
    /\ layers w' = [(first, 0%nat); (second, 1%nat)]
    /\ catalog w' = [("memory.fetch_" +:+ rstrip first, fetch_spec second)].
Proof.
  intros Hb1 Hb2 Hne Hrs. unfold register_both, bind.
  rewrite (register_layer_run first) by done. simpl.
  rewrite (register_layer_run second) by done. simpl.
  destruct (String.eqb_spec second first) as [He|_]; [by subst|].
  simpl. rewrite <- Hrs, String.eqb_refl. by eexists.
Qed.

Lemma register_layer_shared_spec_witness :
  exists w',
    register_both "a" "a " MemoryBridge.fresh = (Ok (0%nat, 1%nat), w')
    /\ PyDict.keys (layers w') = ["a"; "a "]
    /\ map FunctionSpec.description (PyDict.values (catalog w'))
       = ["Retrieve stored entries from the 'a ' memory layer."].
Proof.
  destruct (register_layer_shared_spec "a" "a ") as (w' & Hr & _ & Hl & Hc);
    [reflexivity|reflexivity|discriminate|reflexivity|].
  exists w'. split; [exact Hr|]. by rewrite Hl, Hc.
Defined.

(** * Further properties *)

(** ** The catalog, continued *)

Lemma dict_set_absent {V} k (v : V) d :
  PyDict.get k d = None -> PyDict.set k v d = d ++ [(k, v)].
Proof.
  induction d as [|[k' v'] d IH]; simpl; [done|].
  destruct (String.eqb k k'); [done|]. intros Hg. by rewrite IH.
Qed.

Lemma dict_remove_last {V} k (v : V) d :
  PyDict.get k d = None -> PyDict.remove k (d ++ [(k, v)]) = d.
Proof.
  induction d as [|[k' v'] d IH]; simpl.
  - by rewrite String.eqb_refl.
  - destruct (String.eqb k k'); [done|]. intros Hg. by rewrite IH.
Qed.

Lemma dict_keys_remove {V} k (d : PyDict.t V) :
  sublist (PyDict.keys (PyDict.remove k d)) (PyDict.keys d).
Proof.
  induction d as [|[k' v'] d IH]; simpl; [done|].
  destruct (String.eqb k k'); simpl.
  - by apply sublist_cons.
  - by apply sublist_skip.
Qed.

Lemma dict_get_remove_eq {V} k (d : PyDict.t V) :
  PyDict.wf d -> PyDict.get k (PyDict.remove k d) = None.
Proof.
  unfold PyDict.wf. induction d as [|[k' v'] d IH]; simpl; [done|].
  rewrite NoDup_cons. intros [Hk Hd].
  destruct (String.eqb_spec k k') as [->|Hne].
  - apply dict_get_None_keys. by rewrite <- list_elem_of_In.
  - simpl. destruct (String.eqb_spec k k'); [done|]. by apply IH.
Qed.

Lemma dict_get_remove_ne {V} k k' (d : PyDict.t V) :
  k <> k' -> PyDict.get k' (PyDict.remove k d) = PyDict.get k' d.
Proof.
  intros Hne. induction d as [|[k0 v0] d IH]; simpl; [done|].
  destruct (String.eqb_spec k k0) as [->|Hk]; simpl.
  - by destruct (String.eqb_spec k' k0); [subst|].
  - by rewrite IH.
Qed.

Lemma dict_length_remove {V} k (d : PyDict.t V) :
  PyDict.contains k d = true -> S (length (PyDict.remove k d)) = length d.
Proof.
  unfold PyDict.contains. induction d as [|[k' v'] d IH]; simpl; [done|].
  destruct (String.eqb k k'); [done|]. intros Hc. simpl. by rewrite IH.
Qed.

Lemma catalog_wf_remove name c :
  McpCatalog.wf c -> McpCatalog.wf (snd (McpCatalog.remove name c)).
Proof.
  intros [Hk Hn]. unfold McpCatalog.remove.
  destruct (negb _); simpl; [done|]. split.
  - unfold PyDict.wf in *. eapply sublist_NoDup; [done|apply dict_keys_remove].
  - clear Hk. induction Hn as [|[k s] c Hs Hn IH]; simpl; [done|].
    destruct (String.eqb name k); [done|]. by constructor.
Qed.

(** X1: whatever sequence of [register], [remove] and [clear] calls a
    catalog has gone through since it was created, failed calls included,
    every spec is filed under its own name and [describe()] lists no name
    twice. *)
Theorem catalog_names_unique (ops : list catalog_op) :
  McpCatalog.wf (catalog_after ops)
  /\ NoDup (described_names (catalog_after ops)).
Proof.
  assert (Hwf : McpCatalog.wf (catalog_after ops)).
  { unfold catalog_after.
    assert (H0 : McpCatalog.wf McpCatalog.new).
    { split; [apply NoDup_nil_2|constructor]. }
    revert H0. generalize McpCatalog.new.
    induction ops as [|op ops IH]; intros c Hc; [done|]. simpl. apply IH.
    destruct op as [spec replace|name|]; simpl.
    - by apply catalog_wf_register.
    - by apply catalog_wf_remove.
    - split; [apply NoDup_nil_2|constructor]. }
  split; [done|]. destruct Hwf as [Hk Hn]. unfold described_names.
  assert (map FunctionSpec.name (PyDict.values (catalog_after ops))
          = PyDict.keys (catalog_after ops)) as ->; [|done].
  unfold PyDict.values, PyDict.keys. rewrite map_map.
  apply map_ext_in. intros kv Hin. rewrite Forall_forall in Hn.
  by apply Hn, list_elem_of_In.
Qed.

(** X2: registering a spec under a name the catalog does not hold succeeds
    with either value of [replace]; the spec goes last in [describe()], is
    what [get] returns for its name, the catalog grows by one, and every
    other name keeps what it had. *)
Theorem catalog_register_fresh (spec : FunctionSpec.t) (replace : bool)
    (c : McpCatalog.t) :
  catalog_contains (FunctionSpec.name spec) c = false ->
  fst (McpCatalog.register spec replace c) = Ok tt
  /\ McpCatalog.describe (snd (McpCatalog.register spec replace c))
     = McpCatalog.describe c ++ [FunctionSpec.to_dict spec]
  /\ McpCatalog.get (FunctionSpec.name spec)
       (snd (McpCatalog.register spec replace c)) = Ok spec
  /\ catalog_len (snd (McpCatalog.register spec replace c))
     = S (catalog_len c)
  /\ (forall name, name <> FunctionSpec.name spec ->
        McpCatalog.get name (snd (McpCatalog.register spec replace c))
        = McpCatalog.get name c).
Proof.
  unfold catalog_contains, McpCatalog.register. intros Hc. rewrite Hc. simpl.
  assert (Hg : PyDict.get (FunctionSpec.name spec) c = None).
  { unfold PyDict.contains in Hc. by destruct (PyDict.get _ c). }
  split; [done|]. unfold McpCatalog.get. rewrite dict_get_set_eq.
  rewrite (dict_set_absent _ _ _ Hg).
  unfold McpCatalog.describe, PyDict.values, catalog_len.
  rewrite !map_app, length_app. simpl.
  split; [done|]. split; [done|]. split; [lia|]. intros name Hne.
  rewrite <- (dict_set_absent _ spec _ Hg). by rewrite dict_get_set_ne.
Qed.

Lemma catalog_register_fresh_witness :
  McpCatalog.describe
    (snd (McpCatalog.register (FunctionSpec.mk "g" "second" [] [] []) false
            [("f", FunctionSpec.mk "f" "first" [] [] [])]))
  = McpCatalog.describe [("f", FunctionSpec.mk "f" "first" [] [] [])]
    ++ [FunctionSpec.to_dict (FunctionSpec.mk "g" "second" [] [] [])].
Proof.
  exact (proj1 (proj2 (catalog_register_fresh
                         (FunctionSpec.mk "g" "second" [] [] []) false
                         [("f", FunctionSpec.mk "f" "first" [] [] [])]
                         eq_refl))).
Defined.

(** X3: [remove] of a name the catalog does not hold raises [KeyError] and
    changes nothing; of a name it holds, it succeeds, after which [get] of
    that name raises [KeyError], the catalog is one shorter, and every other
    name keeps what it had. *)
Theorem catalog_remove_contract (name : string) (c : McpCatalog.t) :
  McpCatalog.wf c ->
  (catalog_contains name c = false ->
   McpCatalog.remove name c = (Raise (KeyError name), c))
  /\ (catalog_contains name c = true ->
      fst (McpCatalog.remove name c) = Ok tt
      /\ McpCatalog.get name (snd (McpCatalog.remove name c))
         = Raise (KeyError name)
      /\ S (catalog_len (snd (McpCatalog.remove name c))) = catalog_len c
      /\ (forall other, other <> name ->
            McpCatalog.get other (snd (McpCatalog.remove name c))
            = McpCatalog.get other c)).
Proof.
  intros [Hk Hn]. unfold catalog_contains, McpCatalog.remove.
  split; intros Hc; rewrite Hc; simpl; [done|].
  unfold McpCatalog.get, catalog_len.
  rewrite (dict_get_remove_eq _ _ Hk), (dict_length_remove _ _ Hc).
  do 3 (split; [done|]). intros other Hne. by rewrite dict_get_remove_ne.
Qed.

Lemma catalog_remove_contract_witness :
  McpCatalog.get "f"
    (snd (McpCatalog.remove "f"
            [("f", FunctionSpec.mk "f" "first" [] [] []);
             ("g", FunctionSpec.mk "g" "second" [] [] [])]))
  = Raise (KeyError "f").
Proof.
  refine (proj1 (proj2 (proj2 (catalog_remove_contract "f"
            [("f", FunctionSpec.mk "f" "first" [] [] []);
             ("g", FunctionSpec.mk "g" "second" [] [] [])] _) eq_refl))).
  split.
  - apply NoDup_cons. split; [|apply NoDup_singleton].
    rewrite list_elem_of_singleton. discriminate.
  - by repeat constructor.
Defined.

(** X4: registering a spec under a new name and then removing that name
    gives back the catalog as it was. *)
Theorem catalog_register_remove (spec : FunctionSpec.t) (replace : bool)
    (c : McpCatalog.t) :
  catalog_contains (FunctionSpec.name spec) c = false ->
  McpCatalog.remove (FunctionSpec.name spec)
    (snd (McpCatalog.register spec replace c))
  = (Ok tt, c).
Proof.
  unfold catalog_contains. intros Hc.
  assert (Hg : PyDict.get (FunctionSpec.name spec) c = None).
  { unfold PyDict.contains in Hc. by destruct (PyDict.get _ c). }
  unfold McpCatalog.register. rewrite Hc. simpl.
  unfold McpCatalog.remove. rewrite dict_contains_set. simpl.
  by rewrite (dict_set_absent _ _ _ Hg), (dict_remove_last _ _ _ Hg).
Qed.

Lemma catalog_register_remove_witness :
  McpCatalog.remove "g"
    (snd (McpCatalog.register (FunctionSpec.mk "g" "second" [] [] []) false
            [("f", FunctionSpec.mk "f" "first" [] [] [])]))
  = (Ok tt, [("f", FunctionSpec.mk "f" "first" [] [] [])]).
Proof.
  exact (catalog_register_remove (FunctionSpec.mk "g" "second" [] [] []) false
           [("f", FunctionSpec.mk "f" "first" [] [] [])] eq_refl).
Defined.

Lemma to_dict_inj s1 s2 :
  FunctionSpec.to_dict s1 = FunctionSpec.to_dict s2 -> s1 = s2.
Proof.
  destruct s1 as [n1 d1 i1 o1 t1], s2 as [n2 d2 i2 o2 t2].
  unfold FunctionSpec.to_dict, FunctionSpec.str_dict. simpl.
  intros [= -> -> Hi Ho Ht].
  assert (Hpair : forall a b : list (string * string),
            map (fun kv => (kv.1, VStr kv.2)) a
            = map (fun kv => (kv.1, VStr kv.2)) b -> a = b).
  { induction a as [|[k v] a IH]; intros [|[k' v'] b]; simpl; try done.
    intros [= -> -> Hab]. f_equal. by apply IH. }
  assert (Hstr : forall a b : list string, map VStr a = map VStr b -> a = b).
  { induction a as [|x a IH]; intros [|y b]; simpl; try done.
    intros [= -> Hab]. f_equal. by apply IH. }
  by rewrite (Hpair _ _ Hi), (Hpair _ _ Ho), (Hstr _ _ Ht).
Qed.

(** X5: [describe()] loses nothing: two catalogs with the same
    description hold the same specs in the same order. *)
Theorem describe_faithful (c1 c2 : McpCatalog.t) :
  McpCatalog.wf c1 -> McpCatalog.wf c2 ->
  McpCatalog.describe c1 = McpCatalog.describe c2 -> c1 = c2.
Proof.
  intros [_ H1] [_ H2]. unfold McpCatalog.describe, PyDict.values.
  revert c2 H2. induction H1 as [|[k1 s1] c1 Hs1 H1 IH]; intros c2 H2.
  - by destruct c2.
  - destruct H2 as [|[k2 s2] c2 Hs2 H2]; [done|]. simpl in Hs1, Hs2.
    cbn [map snd]. remember (FunctionSpec.to_dict s1) as d1 eqn:E1.
    remember (FunctionSpec.to_dict s2) as d2 eqn:E2.
    intros Heq. injection Heq as Hd Hrest. subst d1 d2.
    apply to_dict_inj in Hd. subst. f_equal. by apply IH.
Qed.

Lemma describe_faithful_witness :
  snd (McpCatalog.register (FunctionSpec.mk "f" "first" [] [] []) false
         McpCatalog.new)
  = snd (McpCatalog.register (FunctionSpec.mk "f" "first" [] [] []) true
           McpCatalog.new).
Proof.
  apply describe_faithful.
  - apply catalog_wf_register. split; [apply NoDup_nil_2|constructor].
  - apply catalog_wf_register. split; [apply NoDup_nil_2|constructor].
  - reflexivity.
Defined.

(** ** Layers, continued *)

(** X6: a layer accepts exactly the entries that carry its name: after any
    sequence of [add] calls, [all()] is what the layer held followed by the
    entries of that name, in call order; the other calls raised and left no
    trace; so a layer created empty only ever holds entries of its name. *)
Theorem layer_add_each (es : list MemoryEntry.t) (l : MemoryLayer.t) :
  MemoryLayer.name (add_each es l) = MemoryLayer.name l
  /\ MemoryLayer.all (add_each es l)
     = MemoryLayer.all l ++ List.filter (on_layer (MemoryLayer.name l)) es
  /\ (forall e,
        MemoryLayer.add e l
        = if on_layer (MemoryLayer.name l) e
          then (Ok tt, MemoryLayer.mk (MemoryLayer.name l)
                         (MemoryLayer.entries l ++ [e]))
          else (Raise (ValueError "Entry layer mismatch"), l))
  /\ Forall (fun e => MemoryEntry.layer e = MemoryLayer.name l)
       (MemoryLayer.all (add_each es (MemoryLayer.new (MemoryLayer.name l)))).
Proof.
  assert (Hadd : forall e l,
    MemoryLayer.add e l
    = if on_layer (MemoryLayer.name l) e
      then (Ok tt, MemoryLayer.mk (MemoryLayer.name l)
                     (MemoryLayer.entries l ++ [e]))
      else (Raise (ValueError "Entry layer mismatch"), l)).
  { intros e l0. unfold MemoryLayer.add, on_layer.
    by destruct (String.eqb _ _). }
  assert (Hall : forall es l,
    MemoryLayer.name (add_each es l) = MemoryLayer.name l
    /\ MemoryLayer.all (add_each es l)
       = MemoryLayer.all l ++ List.filter (on_layer (MemoryLayer.name l)) es).
  { clear es l. induction es as [|e es IH]; intros l; simpl.
    - by rewrite app_nil_r.
    - destruct (IH (snd (MemoryLayer.add e l))) as [Hn Ha].
      rewrite Hn, Ha, Hadd.
      destruct (on_layer (MemoryLayer.name l) e); simpl; [|done].
      split; [done|]. unfold MemoryLayer.all. simpl. by rewrite <- app_assoc. }
  destruct (Hall es l) as [Hn Ha]. do 3 (split; [done|]).
  destruct (Hall es (MemoryLayer.new (MemoryLayer.name l))) as [_ ->].
  simpl. apply Forall_forall. intros e He.
  apply list_elem_of_In, filter_In in He as [_ He].
  by apply String.eqb_eq in He.
Qed.

(** X7: between time zones an aware [since] counts as the instant it
    denotes: two aware values of [since] for the same instant give the same
    query result, or the same error, on every layer that holds no reading of
    the tzinfo object of either value at another offset. *)
Theorem query_same_instant (since1 since2 : datetime.t) (l : MemoryLayer.t) :
  datetime.aware since1 = true -> datetime.aware since2 = true ->
  instant since1 = instant since2 ->
  Forall (fun e => steady since1 e = true) (MemoryLayer.entries l) ->
  Forall (fun e => steady since2 e = true) (MemoryLayer.entries l) ->
  MemoryLayer.query (Some since1) l = MemoryLayer.query (Some since2) l.
Proof.
  intros H1 H2 Hi Hs1 Hs2. unfold MemoryLayer.query. rewrite H1, H2. simpl.
  induction Hs1 as [|e es He1 Hs1 IH]; [done|].
  apply Forall_cons in Hs2 as [He2 Hs2]. simpl.
  rewrite (IH Hs2), (ge_steady e since1 H1 He1), (ge_steady e since2 H2 He2).
  unfold at_or_after. by rewrite Hi.
Qed.

Lemma query_same_instant_witness :
  MemoryLayer.query (Some (datetime.now_utc 20))
    (MemoryLayer.mk "a" [MemoryEntry.mk "a" "c" "s" (datetime.now_utc 21)])
  = MemoryLayer.query (Some (datetime.mk 27 (Some 1%nat) (Some 7)))
      (MemoryLayer.mk "a" [MemoryEntry.mk "a" "c" "s" (datetime.now_utc 21)]).
Proof.
  apply (query_same_instant (datetime.now_utc 20)
           (datetime.mk 27 (Some 1%nat) (Some 7))); try reflexivity.
  - by repeat constructor.
  - by repeat constructor.
Defined.

(** X8: a later [since] narrows the result: over a layer of aware
    timestamps, none of them a reading of the tzinfo object of either
    [since] at another offset, the query for the later of two aware instants
    returns, in the same order, those entries of the earlier query that are
    at or after the later instant. *)
Theorem query_narrows (since1 since2 : datetime.t) (l : MemoryLayer.t) :
  datetime.aware since1 = true -> datetime.aware since2 = true ->
  instant since1 <= instant since2 ->
  Forall (fun e => aware_entry e = true) (MemoryLayer.entries l) ->
  Forall (fun e => steady since1 e = true) (MemoryLayer.entries l) ->
  Forall (fun e => steady since2 e = true) (MemoryLayer.entries l) ->
  exists r1 r2,
    MemoryLayer.query (Some since1) l = Ok r1
    /\ MemoryLayer.query (Some since2) l = Ok r2
    /\ r2 = List.filter (at_or_after since2) r1
    /\ sublist r2 r1 /\ sublist r1 (MemoryLayer.all l).
Proof.
  intros H1 H2 Hle Hes Hs1 Hs2. unfold MemoryLayer.query, MemoryLayer.all.
  rewrite H1, H2. simpl. rewrite !since_filter_aware by done.
  eexists _, _. split; [done|]. split; [done|].
  assert (Hsub : forall (f : MemoryEntry.t -> bool) es,
            sublist (List.filter f es) es).
  { intros f es. induction es as [|e es IH]; simpl; [done|].
    destruct (f e); [by apply sublist_skip|by apply sublist_cons]. }
  assert (Heq : List.filter (at_or_after since2) (MemoryLayer.entries l)
                = List.filter (at_or_after since2)
                    (List.filter (at_or_after since1) (MemoryLayer.entries l))).
  { clear Hes Hs1 Hs2.
    induction (MemoryLayer.entries l) as [|e es IH]; [done|]. simpl.
    destruct (at_or_after since2 e) eqn:E2.
    - assert (at_or_after since1 e = true) as ->.
      { unfold at_or_after in *. lia. }
      simpl. by rewrite E2, IH.
    - destruct (at_or_after since1 e); simpl; [by rewrite E2|done]. }
  split; [done|]. split; [|apply Hsub]. rewrite Heq. apply Hsub.
Qed.

Lemma query_narrows_witness :
  exists r1 r2,
    MemoryLayer.query (Some (datetime.now_utc 10))
      (MemoryLayer.mk "a" [ MemoryEntry.mk "a" "late" "s" (datetime.now_utc 30);
                            MemoryEntry.mk "a" "early" "s" (datetime.now_utc 15) ])
    = Ok r1
    /\ MemoryLayer.query (Some (datetime.now_utc 20))
         (MemoryLayer.mk "a" [ MemoryEntry.mk "a" "late" "s" (datetime.now_utc 30);
                               MemoryEntry.mk "a" "early" "s" (datetime.now_utc 15) ])
       = Ok r2
    /\ r2 = List.filter (at_or_after (datetime.now_utc 20)) r1
    /\ sublist r2 r1
    /\ sublist r1
         (MemoryLayer.all
            (MemoryLayer.mk "a" [ MemoryEntry.mk "a" "late" "s" (datetime.now_utc 30);
                                  MemoryEntry.mk "a" "early" "s" (datetime.now_utc 15) ])).
Proof.
  apply query_narrows; try reflexivity.
  - unfold instant. simpl. lia.
  - by repeat constructor.
  - by repeat constructor.
  - by repeat constructor.
Defined.

(** X27: inside one time zone the query compares clock readings, not
    instants: for an aware [since] and a layer whose timestamps all carry
    the tzinfo object of [since], it returns the entries whose date and time
    fields read at or after those of [since], whatever offsets they report.
    In the repeated hour at the end of daylight saving it drops an entry
    stored after [since]. *)
Theorem query_shared_zone (since : datetime.t) (l : MemoryLayer.t) :
  datetime.aware since = true ->
  Forall (fun e => shares_zone since e = true) (MemoryLayer.entries l) ->
  MemoryLayer.query (Some since) l
  = Ok (List.filter (reads_at_or_after since) (MemoryLayer.all l)).
Proof.
  intros Hs Hes. unfold MemoryLayer.query. rewrite Hs. simpl.
  by apply since_filter_shared.
Qed.

(** Minutes of one night in a zone (object 1) that goes from four to five
    hours behind UTC: [since] reads 01:30 before the change, the entry reads
    01:10 after it, forty minutes later. *)
Lemma query_shared_zone_witness :
  MemoryLayer.query (Some (datetime.mk 90 (Some 1%nat) (Some (-240))))
    (MemoryLayer.mk "a"
       [MemoryEntry.mk "a" "c" "s" (datetime.mk 70 (Some 1%nat) (Some (-300)))])
  = Ok []
  /\ at_or_after (datetime.mk 90 (Some 1%nat) (Some (-240)))
       (MemoryEntry.mk "a" "c" "s" (datetime.mk 70 (Some 1%nat) (Some (-300))))
     = true
  /\ MemoryLayer.query (Some (datetime.now_utc 330))
       (MemoryLayer.mk "a"
          [MemoryEntry.mk "a" "c" "s" (datetime.mk 70 (Some 1%nat) (Some (-300)))])
     = Ok [MemoryEntry.mk "a" "c" "s" (datetime.mk 70 (Some 1%nat) (Some (-300)))].
Proof.
  split; [|split; reflexivity].
  apply (query_shared_zone (datetime.mk 90 (Some 1%nat) (Some (-240)))
           (MemoryLayer.mk "a"
              [MemoryEntry.mk "a" "c" "s"
                 (datetime.mk 70 (Some 1%nat) (Some (-300)))])).
  - reflexivity.
  - by repeat constructor.
Defined.

(** ** Broadcasts, continued *)

Lemma received_nil nd : received [] nd = nd.
Proof. destruct nd. unfold received. simpl. by rewrite app_nil_r. Qed.

Lemma received_received a b nd :
  received b (received a nd) = received (a ++ b) nd.
Proof. unfold received. simpl. by rewrite app_assoc. Qed.

Lemma with_nodes_same w : with_nodes (nodes w) w = w.
Proof. by destruct w. Qed.

Lemma deliver_spec entry origin subscribers w :
  valid_nodes subscribers w ->
  exists ns,
    deliver entry origin subscribers w = (Ok tt, with_nodes ns w)
    /\ length ns = length (nodes w)
    /\ forall m nd,
         nodes w !! m = Some nd ->
         ns !! m
         = Some (received (replicate (deliveries origin subscribers m) entry) nd).
Proof.
  unfold valid_nodes. intros Hv. revert w Hv.
  induction subscribers as [|node rest IH]; intros w Hv.
  - exists (nodes w). rewrite with_nodes_same. split; [done|]. split; [done|].
    intros m nd Hm. unfold deliveries, occurrences. simpl.
    destruct (skips origin m); by rewrite received_nil.
  - apply Forall_cons in Hv as [Hnode Hv].
    assert (Hstep : deliver entry origin (node :: rest) w
                    = bind (if skips origin node then ret tt
                            else apply_update node entry)
                        (fun _ => deliver entry origin rest) w).
    { cbn [deliver]. unfold skips. by destruct origin. }
    rewrite Hstep. clear Hstep. destruct (skips origin node) eqn:Hskip.
    + unfold bind, ret. destruct (IH w Hv) as (ns & Hd & Hlen & Hns).
      exists ns. split; [done|]. split; [done|]. intros m nd Hm.
      rewrite (Hns _ _ Hm). do 3 f_equal. unfold deliveries, occurrences.
      destruct (skips origin m) eqn:Hm'; [done|]. simpl.
      destruct (Nat.eqb_spec m node) as [->|_]; [congruence|done].
    + destruct (lookup_lt_is_Some_2 _ _ Hnode) as [nd0 Hnd0].
      assert (Hup : apply_update node entry w
                    = (Ok tt, with_nodes (<[node := Node.apply_update entry nd0]>
                                            (nodes w)) w)).
      { unfold apply_update. by rewrite Hnd0. }
      rewrite (bind_ok _ _ _ _ _ Hup).
      destruct (IH (with_nodes (<[node := Node.apply_update entry nd0]> (nodes w)) w))
        as (ns & Hd & Hlen & Hns).
      { simpl. by rewrite length_insert. }
      exists ns. split; [exact Hd|]. simpl in Hlen. rewrite length_insert in Hlen.
      split; [done|]. intros m nd Hm. simpl in Hns.
      unfold deliveries, occurrences. simpl.
      destruct (Nat.eqb_spec m node) as [->|Hne].
      * rewrite Hskip. rewrite (Hns node (Node.apply_update entry nd0)).
        2:{ by rewrite list_lookup_insert_eq. }
        assert (nd = nd0) as -> by congruence.
        unfold deliveries, occurrences. rewrite Hskip.
        unfold received, Node.apply_update. simpl. by rewrite <- app_assoc.
      * rewrite (Hns m nd); [done|]. by rewrite list_lookup_insert_ne.
Qed.

Lemma broadcast_run (entry : MemoryEntry.t) (origin : option nat)
    (w : World) :
  valid_nodes (WitnessNetwork.subscribers (witnesses w)) w ->
  exists w',
    broadcast entry origin w = (Ok tt, w')
    /\ heap w' = heap w /\ layers w' = layers w /\ catalog w' = catalog w
    /\ witnesses w'
       = WitnessNetwork.mk (WitnessNetwork.log (witnesses w) ++ [entry])
           (WitnessNetwork.subscribers (witnesses w))
    /\ length (nodes w') = length (nodes w)
    /\ forall m nd,
         nodes w !! m = Some nd ->
         nodes w' !! m
         = Some (received
                   (replicate
                      (deliveries origin
                         (WitnessNetwork.subscribers (witnesses w)) m) entry)
                   nd).
Proof.
  intros Hv. unfold broadcast.
  edestruct (deliver_spec entry origin
               (WitnessNetwork.subscribers (witnesses w))) as (ns & Hd & Hlen & Hns);
    [|rewrite Hd; eexists; split; [done|]; by simpl].
  exact Hv.
Qed.

(** X9: a broadcast over subscribers that are all nodes of the world
    succeeds; it appends the entry to the log, keeps the subscriber list,
    the layers and the catalog, and hands the entry to every node as many
    times as the node is subscribed, except to the origin, which gets none:
    a node registered twice receives the entry twice. *)
Theorem broadcast_delivers (entry : MemoryEntry.t) (origin : option nat)
    (w : World) :
  valid_nodes (WitnessNetwork.subscribers (witnesses w)) w ->
  exists w',
    broadcast entry origin w = (Ok tt, w')
    /\ heap w' = heap w /\ layers w' = layers w /\ catalog w' = catalog w
    /\ witnesses w'
       = WitnessNetwork.mk (WitnessNetwork.log (witnesses w) ++ [entry])
           (WitnessNetwork.subscribers (witnesses w))
    /\ length (nodes w') = length (nodes w)
    /\ forall m nd,
         nodes w !! m = Some nd ->
         nodes w' !! m
         = Some (received
                   (replicate
                      (deliveries origin
                         (WitnessNetwork.subscribers (witnesses w)) m) entry)
                   nd).
Proof. exact (broadcast_run entry origin w). Qed.

Lemma broadcast_delivers_witness :
  exists w',
    broadcast (entry_at "x" "doc") None
      (mkWorld [] [Node.new "A" []] []
         (WitnessNetwork.register 0 (WitnessNetwork.register 0 WitnessNetwork.new))
         [])
    = (Ok tt, w')
    /\ Node.inbound <$> nodes w' !! 0%nat
       = Some [entry_at "x" "doc"; entry_at "x" "doc"].
Proof.
  destruct (broadcast_delivers (entry_at "x" "doc") None
              (mkWorld [] [Node.new "A" []] []
                 (WitnessNetwork.register 0
                    (WitnessNetwork.register 0 WitnessNetwork.new)) []))
    as (w' & Hb & _ & _ & _ & _ & _ & Hn).
  - repeat constructor.
  - exists w'. split; [exact Hb|]. by rewrite (Hn 0%nat _ eq_refl).
Defined.

(** ** The fusion loop, continued *)

Lemma stored_same_heap w w' :
  heap w' = heap w -> layers w' = layers w ->
  forall n, stored n w' = stored n w.
Proof. intros Hh Hl n. unfold stored, layer_entries. by rewrite Hh, Hl. Qed.

Lemma wf_world_same_heap w w' :
  heap w' = heap w -> layers w' = layers w -> wf_world w -> wf_world w'.
Proof. intros Hh Hl Hwf. unfold wf_world. by rewrite Hh, Hl. Qed.

(** Looking up, or creating, the layer of a name in the fusion loop. *)
Lemma layers_setdefault_spec name w :
  wf_world w ->
  exists a w1,
    FusionLoop.layers_setdefault name (length (heap w))
      (with_heap (heap w ++ [MemoryLayer.new name]) w) = (Ok a, w1)
    /\ wf_world w1 /\ PyDict.get name (layers w1) = Some a
    /\ nodes w1 = nodes w /\ witnesses w1 = witnesses w
    /\ catalog w1 = catalog w
    /\ forall n, stored n w1 = stored n w.
Proof.
  intros Hwf. destruct (layers_setdefault_ok name w Hwf) as (a & w1 & Hs & Hwf1 & Hg).
  exists a, w1. split; [done|]. split; [done|]. split; [done|].
  unfold FusionLoop.layers_setdefault in Hs. simpl in Hs.
  destruct (PyDict.get name (layers w)) as [a0|] eqn:Hg0;
    injection Hs as <- <-; simpl; do 3 (split; [done|]); intros n.
  - unfold stored, layer_entries. simpl.
    destruct (PyDict.get n (layers w)) as [a'|] eqn:Hn; [|done].
    destruct (Hwf _ _ Hn) as (l & Hl & _).
    by rewrite (lookup_app_l_Some _ _ _ _ Hl), Hl.
  - unfold stored.
    change (with_layers _ _)
      with (mkWorld (heap w ++ [MemoryLayer.new name]) (nodes w)
              (PyDict.set name (length (heap w)) (layers w)) (witnesses w)
              (catalog w)).
    rewrite layer_entries_alloc by done.
    destruct (String.eqb_spec name n) as [<-|_]; [|done].
    unfold layer_entries. by rewrite Hg0.
Qed.

Lemma cycle_entries_spec node updates w :
  wf_world w ->
  valid_nodes (WitnessNetwork.subscribers (witnesses w)) w ->
  exists w',
    FusionLoop.cycle_entries node updates w = (Ok tt, w')
    /\ wf_world w' /\ catalog w' = catalog w
    /\ witnesses w'
       = WitnessNetwork.mk (WitnessNetwork.log (witnesses w) ++ updates)
           (WitnessNetwork.subscribers (witnesses w))
    /\ (forall n, stored n w' = stored n w ++ List.filter (on_layer n) updates)
    /\ length (nodes w') = length (nodes w)
    /\ forall m nd,
         nodes w !! m = Some nd ->
         nodes w' !! m
         = Some (received
                   (flat_map
                      (fun e => replicate
                                  (deliveries (Some node)
                                     (WitnessNetwork.subscribers (witnesses w)) m)
                                  e)
                      updates)
                   nd).
Proof.
  revert w. induction updates as [|entry updates IH]; intros w Hwf Hv.
  - exists w. simpl. split; [done|]. split; [done|]. split; [done|].
    split; [by destruct (witnesses w); rewrite app_nil_r|].
    split; [by intros n; rewrite app_nil_r|]. split; [done|].
    intros m nd Hm. by rewrite received_nil.
  - cbn [FusionLoop.cycle_entries]. erewrite bind_ok by reflexivity.
    destruct (layers_setdefault_spec (MemoryEntry.layer entry) w Hwf)
      as (a & w1 & Hset & Hwf1 & Hg1 & Hn1 & Hw1 & Hc1 & Hs1).
    rewrite (bind_ok _ _ _ _ _ Hset).
    destruct (layer_add_ok a entry w1 Hwf1 Hg1)
      as (w2 & Ha & Hwf2 & Hl2 & Hc2 & Hs2).
    rewrite (bind_ok _ _ _ _ _ Ha).
    pose proof (keeps_layer_add a entry w1) as Hk. rewrite Ha in Hk.
    unfold witness_side in Hk. simpl in Hk. injection Hk as Hw2 Hn2.
    destruct (broadcast_run entry (Some node) w2)
      as (w3 & Hb & Hh3 & Hl3 & Hc3 & Hw3 & Hlen3 & Hn3).
    { unfold valid_nodes. by rewrite Hw2, Hn2, Hw1, Hn1. }
    rewrite (bind_ok _ _ _ _ _ Hb).
    destruct (IH w3) as (w' & Hcy & Hwf' & Hc' & Hw' & Hs' & Hlen' & Hn').
    { by apply (wf_world_same_heap w2). }
    { unfold valid_nodes. rewrite Hw3, Hlen3, Hn2, Hn1, Hw2, Hw1. exact Hv. }
    exists w'. split; [exact Hcy|]. split; [done|].
    split; [congruence|]. split; [|split; [|split; [congruence|]]].
    + rewrite Hw', Hw3, Hw2, Hw1. simpl. by rewrite <- app_assoc.
    + intros n. rewrite Hs', (stored_same_heap w2 w3 Hh3 Hl3), Hs2, Hs1.
      rewrite <- app_assoc. f_equal. simpl. by destruct (on_layer n entry).
    + intros m nd Hm. rewrite <- Hn1, <- Hn2 in Hm.
      rewrite (Hn' m _ (Hn3 m nd Hm)), received_received.
      by rewrite Hw3, Hw2, Hw1.
Qed.

Lemma polls_cleared nodes outs :
  (forall m, In m nodes -> default [] (outs !! m) = []) ->
  polled (polls nodes outs) = []
  /\ forall subscribers m, fanout subscribers m (polls nodes outs) = [].
Proof.
  unfold polled, fanout. revert outs.
  induction nodes as [|node rest IH]; intros outs Hout; [done|]. simpl.
  rewrite (Hout node) by (by left). simpl.
  apply IH. intros m Hm. destruct (decide (m = node)) as [->|Hne].
  - destruct (outs !! node) eqn:E.
    + by rewrite list_lookup_insert_eq by (by eapply lookup_lt_Some).
    + rewrite list_insert_ge; [by rewrite E|]. by apply lookup_ge_None.
  - rewrite list_lookup_insert_ne by done. apply Hout. by right.
Qed.

Lemma cycle_run (nodes_ : list nat) (w : World) :
  wf_world w ->
  valid_nodes nodes_ w ->
  valid_nodes (WitnessNetwork.subscribers (witnesses w)) w ->
  exists w',
    FusionLoop.cycle nodes_ w = (Ok tt, w')
    /\ wf_world w' /\ catalog w' = catalog w
    /\ witnesses w'
       = WitnessNetwork.mk
           (WitnessNetwork.log (witnesses w)
              ++ polled (polls nodes_ (map Node.outbound (nodes w))))
           (WitnessNetwork.subscribers (witnesses w))
    /\ (forall n,
          stored n w'
          = stored n w
            ++ List.filter (on_layer n)
                 (polled (polls nodes_ (map Node.outbound (nodes w)))))
    /\ length (nodes w') = length (nodes w)
    /\ forall m nd,
         nodes w !! m = Some nd ->
         nodes w' !! m
         = Some (Node.mk (Node.name nd)
                   (if existsb (Nat.eqb m) nodes_ then [] else Node.outbound nd)
                   (Node.inbound nd
                      ++ fanout (WitnessNetwork.subscribers (witnesses w)) m
                           (polls nodes_ (map Node.outbound (nodes w))))).
Proof.
  revert w. induction nodes_ as [|node rest IH]; intros w Hwf Hvn Hvs.
  - exists w. simpl. split; [done|]. split; [done|]. split; [done|].
    unfold polled, fanout. simpl.
    split; [by destruct (witnesses w); rewrite app_nil_r|].
    split; [by intros n; rewrite app_nil_r|]. split; [done|].
    intros m [nm out inb] Hm. simpl. by rewrite app_nil_r.
  - apply Forall_cons in Hvn as [Hnode Hvn].
    destruct (lookup_lt_is_Some_2 _ _ Hnode) as [nd0 Hnd0].
    set (ns1 := <[node := Node.mk (Node.name nd0) [] (Node.inbound nd0)]> (nodes w)).
    assert (Hf : fetch_updates node w
                 = (Ok (Node.outbound nd0), with_nodes ns1 w)).
    { unfold fetch_updates. by rewrite Hnd0. }
    cbn [FusionLoop.cycle]. rewrite (bind_ok _ _ _ _ _ Hf).
    destruct (cycle_entries_spec node (Node.outbound nd0) (with_nodes ns1 w))
      as (w2 & Hce & Hwf2 & Hc2 & Hw2 & Hs2 & Hlen2 & Hn2).
    { by apply (wf_world_same_heap w). }
    { unfold valid_nodes, ns1. simpl. by rewrite length_insert. }
    rewrite (bind_ok _ _ _ _ _ Hce). simpl in Hc2, Hw2, Hlen2, Hn2.
    unfold ns1 in Hlen2. rewrite length_insert in Hlen2.
    assert (Hs2' : forall n, stored n w2
                   = stored n w ++ List.filter (on_layer n) (Node.outbound nd0)).
    { intros n. by rewrite Hs2. }
    assert (Houts : map Node.outbound (nodes w2)
                    = <[node := []]> (map Node.outbound (nodes w))).
    { apply list_eq. intros i. rewrite list_lookup_fmap.
      destruct (nodes w !! i) as [nd|] eqn:Hi.
      - destruct (decide (i = node)) as [->|Hne].
        + rewrite (Hn2 node (Node.mk (Node.name nd0) [] (Node.inbound nd0)))
            by (unfold ns1; by rewrite list_lookup_insert_eq).
          simpl. rewrite list_lookup_insert_eq; [done|].
          by rewrite length_map.
        + rewrite (Hn2 i nd) by (unfold ns1; by rewrite list_lookup_insert_ne).
          simpl. rewrite list_lookup_insert_ne by done.
          by rewrite list_lookup_fmap, Hi.
      - apply lookup_ge_None in Hi.
        rewrite (proj2 (lookup_ge_None _ _)) by lia.
        symmetry. apply lookup_ge_None. rewrite length_insert, length_map. lia. }
    destruct (IH w2) as (w' & Hcy & Hwf' & Hc' & Hw' & Hs' & Hlen' & Hn').
    { done. }
    { unfold valid_nodes. by rewrite Hlen2. }
    { unfold valid_nodes. by rewrite Hw2, Hlen2. }
    exists w'. split; [exact Hcy|]. split; [done|]. split; [congruence|].
    cbn [polls]. rewrite list_lookup_fmap, Hnd0. simpl default.
    rewrite <- Houts. unfold polled, fanout in *. cbn [map concat flat_map fst snd].
    split; [|split; [|split; [congruence|]]].
    + rewrite Hw', Hw2. simpl. by rewrite <- app_assoc.
    + intros n. by rewrite Hs', Hs2', List.filter_app, <- app_assoc.
    + intros m nd Hm. rewrite Hw2 in Hn'. simpl in Hn'.
      destruct (decide (m = node)) as [->|Hne].
      * assert (nd = nd0) as -> by congruence.
        rewrite (Hn' node _ (Hn2 node _ ltac:(unfold ns1; by rewrite list_lookup_insert_eq))).
        simpl. rewrite Nat.eqb_refl. simpl. f_equal. f_equal.
        { by destruct (existsb _ rest). }
        { by rewrite <- app_assoc. }
      * rewrite (Hn' m _ (Hn2 m nd ltac:(unfold ns1; by rewrite list_lookup_insert_ne))).
        simpl. destruct (Nat.eqb_spec m node) as [|_]; [done|]. simpl.
        f_equal. f_equal. by rewrite <- app_assoc.
Qed.

(** X10: a fusion cycle over nodes and subscribers that are all nodes of a
    well-formed world succeeds and keeps the catalog and the subscribers;
    the log grows by the polled entries in polling order; every layer grows
    by the polled entries of its name, in that order; every polled node is
    left without pending updates; and every node receives each polled entry
    once per subscription, except the entries it produced itself. *)
Theorem cycle_spec (nodes_ : list nat) (w : World) :
  wf_world w ->
  valid_nodes nodes_ w ->
  valid_nodes (WitnessNetwork.subscribers (witnesses w)) w ->
  exists w',
    FusionLoop.cycle nodes_ w = (Ok tt, w')
    /\ wf_world w' /\ catalog w' = catalog w
    /\ witnesses w'
       = WitnessNetwork.mk
           (WitnessNetwork.log (witnesses w)
              ++ polled (polls nodes_ (map Node.outbound (nodes w))))
           (WitnessNetwork.subscribers (witnesses w))
    /\ (forall n,
          stored n w'
          = stored n w
            ++ List.filter (on_layer n)
                 (polled (polls nodes_ (map Node.outbound (nodes w)))))
    /\ length (nodes w') = length (nodes w)
    /\ forall m nd,
         nodes w !! m = Some nd ->
         nodes w' !! m
         = Some (Node.mk (Node.name nd)
                   (if existsb (Nat.eqb m) nodes_ then [] else Node.outbound nd)
                   (Node.inbound nd
                      ++ fanout (WitnessNetwork.subscribers (witnesses w)) m
                           (polls nodes_ (map Node.outbound (nodes w))))).
Proof. exact (cycle_run nodes_ w). Qed.

Lemma cycle_spec_witness :
  exists w',
    FusionLoop.cycle [0; 1]%nat
      (mkWorld [] [Node.new "A" [entry_at "x" "doc"]; Node.new "B" []] []
         (WitnessNetwork.mk [] [1; 1; 0]%nat) [])
    = (Ok tt, w')
    /\ WitnessNetwork.log (witnesses w') = [entry_at "x" "doc"]
    /\ Node.inbound <$> nodes w' !! 1%nat
       = Some [entry_at "x" "doc"; entry_at "x" "doc"]
    /\ Node.inbound <$> nodes w' !! 0%nat = Some [].
Proof.
  destruct (cycle_spec [0; 1]%nat
              (mkWorld [] [Node.new "A" [entry_at "x" "doc"]; Node.new "B" []] []
                 (WitnessNetwork.mk [] [1; 1; 0]%nat) []))
    as (w' & Hc & _ & _ & Hw & _ & _ & Hn).
  - by intros n a Hn.
  - repeat constructor.
  - repeat constructor.
  - exists w'. split; [exact Hc|]. rewrite Hw.
    rewrite (Hn 1%nat _ eq_refl), (Hn 0%nat _ eq_refl). by repeat split.
Defined.

Lemma cycle_nothing_pending nodes_ w :
  (forall m, In m nodes_ ->
     exists nd, nodes w !! m = Some nd /\ Node.outbound nd = []) ->
  FusionLoop.cycle nodes_ w = (Ok tt, w).
Proof.
  induction nodes_ as [|node rest IH]; intros Hout; [done|].
  destruct (Hout node) as (nd & Hnd & Ho); [by left|].
  assert (Hf : fetch_updates node w = (Ok [], w)).
  { unfold fetch_updates. rewrite Hnd. unfold Node.fetch_updates. rewrite Ho.
    rewrite list_insert_id; [by rewrite with_nodes_same|].
    rewrite Hnd. f_equal. destruct nd. simpl in *. by subst. }
  cbn [FusionLoop.cycle]. rewrite (bind_ok _ _ _ _ _ Hf).
  cbn [FusionLoop.cycle_entries]. unfold bind at 1, ret at 1.
  apply IH. intros m Hm. apply Hout. by right.
Qed.

(** X11: a second fusion cycle over the same nodes, right after a
    successful one, finds nothing pending and changes nothing: no entry is
    stored, logged or delivered twice. *)
Theorem cycle_twice (nodes_ : list nat) (w : World) :
  wf_world w ->
  valid_nodes nodes_ w ->
  valid_nodes (WitnessNetwork.subscribers (witnesses w)) w ->
  exists w',
    FusionLoop.cycle nodes_ w = (Ok tt, w')
    /\ FusionLoop.cycle nodes_ w' = (Ok tt, w').
Proof.
  intros Hwf Hvn Hvs.
  destruct (cycle_run nodes_ w Hwf Hvn Hvs)
    as (w' & Hc & _ & _ & _ & _ & _ & Hn).
  exists w'. split; [exact Hc|]. apply cycle_nothing_pending.
  intros m Hm. unfold valid_nodes in Hvn. rewrite Forall_forall in Hvn.
  destruct (lookup_lt_is_Some_2 (nodes w) m) as [nd Hnd].
  { apply Hvn. by apply list_elem_of_In. }
  eexists. split; [by apply Hn|]. simpl.
  assert (existsb (Nat.eqb m) nodes_ = true) as ->; [|done].
  apply existsb_exists. exists m. split; [done|apply Nat.eqb_refl].
Qed.

Lemma cycle_twice_witness :
  exists w',
    FusionLoop.cycle [0; 1]%nat
      (mkWorld [] [Node.new "A" [entry_at "x" "doc"]; Node.new "B" []] []
         (WitnessNetwork.mk [] [0; 1]%nat) [])
    = (Ok tt, w')
    /\ FusionLoop.cycle [0; 1]%nat w' = (Ok tt, w').
Proof.
  apply cycle_twice.
  - by intros n a Hn.
  - repeat constructor.
  - repeat constructor.
Defined.

Section Evolves.
Context (R : World -> World -> Prop).
Hypothesis R_refl : forall w, R w w.
Hypothesis R_trans : forall w1 w2 w3, R w1 w2 -> R w2 w3 -> R w1 w3.

Lemma evolves_ret {A} (a : A) : evolves R (ret a).
Proof using R_refl. intros w. apply R_refl. Qed.

Lemma evolves_bind {A B} (m : M A) (k : A -> M B) :
  evolves R m -> (forall a, evolves R (k a)) -> evolves R (bind m k).
Proof using R_trans.
  intros Hm Hk w. unfold bind. specialize (Hm w).
  destruct (m w) as [[a|e] w']; simpl in *; [|done].
  eapply R_trans; [exact Hm|apply Hk].
Qed.
End Evolves.

Lemma log_extends_refl w : log_extends w w.
Proof. split; [done|]. exists []. by rewrite app_nil_r. Qed.

Lemma log_extends_trans w1 w2 w3 :
  log_extends w1 w2 -> log_extends w2 w3 -> log_extends w1 w3.
Proof.
  intros [Hs1 [m1 Hl1]] [Hs2 [m2 Hl2]]. split; [congruence|].
  exists (m1 ++ m2). by rewrite Hl2, Hl1, app_assoc.
Qed.

Lemma log_extends_same w w' : witnesses w' = witnesses w -> log_extends w w'.
Proof.
  intros H. unfold log_extends. rewrite H. split; [done|].
  exists []. by rewrite app_nil_r.
Qed.

Lemma evolves_cycle nodes_ : evolves log_extends (FusionLoop.cycle nodes_).
Proof.
  pose proof log_extends_refl as Hr. pose proof log_extends_trans as Ht.
  induction nodes_ as [|node rest IH]; [by apply evolves_ret|].
  cbn [FusionLoop.cycle]. apply evolves_bind; [done|..].
  { intros w. apply log_extends_same.
    apply (keeps_fetch_updates witnesses node (fun _ _ => eq_refl)). }
  intros updates. apply evolves_bind; [done| |by intros _].
  induction updates as [|entry updates IHu]; [by apply evolves_ret|].
  cbn [FusionLoop.cycle_entries].
  apply evolves_bind; [done|by intros w; apply log_extends_same|].
  intros fresh. apply evolves_bind; [done|..].
  { intros w. apply log_extends_same. unfold FusionLoop.layers_setdefault.
    by destruct (PyDict.get _ _). }
  intros layer. apply evolves_bind; [done|..].
  { intros w. apply log_extends_same.
    pose proof (keeps_layer_add layer entry w) as Hk.
    unfold witness_side in Hk. by injection Hk. }
  intros _. apply evolves_bind; [done| |by intros _].
  intros w. unfold log_extends, broadcast. rewrite deliver_witnesses. simpl.
  split; [done|]. by eexists.
Qed.

(** X12: whatever its outcome, also when it stops at a node that does not
    exist, a fusion cycle keeps a well-formed world well formed, never
    changes the catalog or the subscriber list, and never removes or
    reorders what the log held: the log only grows at its end. *)
Theorem cycle_keeps_invariants (nodes_ : list nat) (w : World) :
  (wf_world w -> wf_world (snd (FusionLoop.cycle nodes_ w)))
  /\ catalog (snd (FusionLoop.cycle nodes_ w)) = catalog w
  /\ WitnessNetwork.subscribers (witnesses (snd (FusionLoop.cycle nodes_ w)))
     = WitnessNetwork.subscribers (witnesses w)
  /\ exists more,
       WitnessNetwork.log (witnesses (snd (FusionLoop.cycle nodes_ w)))
       = WitnessNetwork.log (witnesses w) ++ more.
Proof.
  split; [apply cycle_wf|]. split; [apply cycle_keeps_catalog|].
  apply evolves_cycle.
Qed.

(** ** The bridge, continued *)

Lemma dict_contains_keys {V} k (d : PyDict.t V) :
  PyDict.contains k d = true <-> In k (PyDict.keys d).
Proof.
  unfold PyDict.contains. pose proof (dict_get_None_keys k d) as H.
  destruct (PyDict.get k d); split; try done.
  - intros _. destruct (in_dec string_dec k (PyDict.keys d)) as [Hin|Hn]; [done|].
    by apply H in Hn.
  - intros Hin. exfalso. by apply H.
Qed.


Lemma register_layer_wf name w :
  wf_world w -> wf_world (snd (MemoryBridge.register_layer name w)).
Proof.
  intros Hwf. destruct (blank name) eqn:Hb.
  - by rewrite register_layer_blank.
  - destruct (register_layer_ok name w Hb Hwf) as (a & w1 & -> & _ & Hwf1 & _).
    exact Hwf1.
Qed.


(** X14: [get_layer] of a name that was never registered raises
    [KeyError] and changes nothing; once [register_layer] has returned a
    layer for a name, [get_layer] of that name returns that same object,
    and the layers registered before are still found, each with the object
    and the entries it had. *)
Theorem get_layer_contract (name : string) (w : World) :
  (PyDict.contains name (layers w) = false ->
   MemoryBridge.get_layer name w = (Raise (KeyError name), w))
  /\ (blank name = false ->
      exists a w1,
        MemoryBridge.register_layer name w = (Ok a, w1)
        /\ MemoryBridge.get_layer name w1 = (Ok a, w1)
        /\ forall other b,
             MemoryBridge.get_layer other w = (Ok b, w) ->
             MemoryBridge.get_layer other w1 = (Ok b, w1)
             /\ (forall l, heap w !! b = Some l -> heap w1 !! b = Some l)).
Proof.
  unfold MemoryBridge.get_layer, PyDict.contains. split.
  - by destruct (PyDict.get name (layers w)).
  - intros Hb. rewrite (register_layer_run _ _ Hb).
    destruct (PyDict.get name (layers w)) as [a|] eqn:Hg.
    + exists a, w. rewrite Hg. split; [done|]. split; [done|].
      intros other b Hget. by split.
    + eexists _, _. split; [done|]. simpl. rewrite dict_get_set_eq.
      split; [done|]. intros other b Hget.
      destruct (PyDict.get other (layers w)) as [b'|] eqn:Ho; [|done].
      injection Hget as ->.
      assert (name <> other) by congruence.
      rewrite dict_get_set_ne, Ho by done. split; [done|].
      intros l Hl. by apply lookup_app_l_Some.
Qed.

Lemma get_layer_contract_witness :
  exists a w1,
    MemoryBridge.register_layer "legal_evidence" MemoryBridge.fresh = (Ok a, w1)
    /\ MemoryBridge.get_layer "legal_evidence" w1 = (Ok a, w1).
Proof.
  destruct (proj2 (get_layer_contract "legal_evidence" MemoryBridge.fresh) eq_refl)
    as (a & w1 & Hr & Hg & _).
  by exists a, w1.
Defined.

(** X15: [export_layer] never changes the bridge.  For a name that was
    never registered it raises [KeyError]; for a layer of a well-formed
    bridge it raises [ValueError] on a naive [since], returns the
    serialised entries of the layer in insertion order when [since] is
    omitted, and those at or after an aware [since] when the timestamps of
    the layer are aware and none of them is a reading of the tzinfo object
    of [since] at another offset. *)
Theorem export_layer_contract (isoformat : datetime.t -> string)
    (name : string) (w : World) :
  wf_world w ->
  (forall since, snd (export_layer isoformat name since w) = w)
  /\ (PyDict.contains name (layers w) = false ->
      forall since,
        fst (export_layer isoformat name since w) = Raise (KeyError name))
  /\ (PyDict.contains name (layers w) = true ->
      fst (export_layer isoformat name None w)
      = Ok (map (entry_to_dict isoformat) (stored name w))
      /\ (forall since, datetime.aware since = false ->
            fst (export_layer isoformat name (Some since) w)
            = Raise (ValueError "'since' must be timezone-aware."))
      /\ (forall since, datetime.aware since = true ->
            Forall (fun e => aware_entry e = true) (stored name w) ->
            Forall (fun e => steady since e = true) (stored name w) ->
            fst (export_layer isoformat name (Some since) w)
            = Ok (map (entry_to_dict isoformat)
                    (List.filter (at_or_after since) (stored name w))))).
Proof.
  intros Hwf. unfold export_layer, bind, MemoryBridge.get_layer, stored,
    layer_entries, PyDict.contains.
  destruct (PyDict.get name (layers w)) as [a|] eqn:Hg.
  - destruct (Hwf _ _ Hg) as (l & Hl & _). rewrite Hl. simpl.
    split; [|split; [done|intros _; split; [done|split]]].
    + intros since. by destruct (MemoryLayer.query since l).
    + intros since Hs. unfold MemoryLayer.query. by rewrite Hs.
    + intros since Hs Hes Hst. unfold MemoryLayer.query. rewrite Hs. simpl.
      by rewrite since_filter_aware.
  - by repeat split.
Qed.

Lemma export_layer_contract_witness :
  fst (export_layer (fun _ => "2024-01-01T00:00:00+00:00") "x" None
         (snd (MemoryBridge.register_layer "x" MemoryBridge.fresh)))
  = Ok [].
Proof.
  refine (proj1 (proj2 (proj2 (export_layer_contract _ "x"
            (snd (MemoryBridge.register_layer "x" MemoryBridge.fresh)) _))
            eq_refl)).
  apply register_layer_wf, wf_world_fresh.
Defined.

(** ** The operator, continued *)

Lemma find_app_first {A} (f : A -> bool) l1 l2 :
  find f (l1 ++ l2)
  = match find f l1 with Some x => Some x | None => find f l2 end.
Proof.
  induction l1 as [|x l1 IH]; simpl; [done|]. by destruct (f x).
Qed.

Lemma operator_new_fold cs d :
  PyDict.wf d ->
  Forall (fun kv => Connector.name (snd kv) = fst kv) d ->
  let d' := fold_left (fun cs c => OperatorCore.register_connector c cs) cs d in
  PyDict.wf d'
  /\ Forall (fun kv => Connector.name (snd kv) = fst kv) d'
  /\ (forall name,
        PyDict.get name d'
        = match find (fun c => String.eqb (Connector.name c) name) (rev cs) with
          | Some c => Some c
          | None => PyDict.get name d
          end)
  /\ PyDict.keys d'
     = fold_left
         (fun seen n => if existsb (String.eqb n) seen then seen else seen ++ [n])
         (map Connector.name cs) (PyDict.keys d).
Proof.
  revert d. induction cs as [|c cs IH]; intros d Hwf Hn; simpl.
  - by repeat split.
  - change (OperatorCore.register_connector c d)
      with (PyDict.set (Connector.name c) c d).
    destruct (IH (PyDict.set (Connector.name c) c d)) as (Hwf' & Hn' & Hget & Hkeys).
    { by apply dict_wf_set. }
    { by apply dict_Forall_set. }
    split; [done|]. split; [done|]. split.
    + intros name. rewrite Hget, find_app_first.
      destruct (find _ (rev cs)); [done|]. simpl.
      destruct (String.eqb_spec (Connector.name c) name) as [<-|Hne].
      * apply dict_get_set_eq.
      * by apply dict_get_set_ne.
    + rewrite Hkeys, dict_keys_set. f_equal.
      assert (PyDict.contains (Connector.name c) d
              = existsb (String.eqb (Connector.name c)) (PyDict.keys d)) as ->;
        [|done].
      apply eq_true_iff_eq. rewrite dict_contains_keys, existsb_exists.
      split.
      * intros Hin. exists (Connector.name c). split; [done|apply String.eqb_refl].
      * intros (x & Hx & Heq). apply String.eqb_eq in Heq. by subst.
Qed.

Lemma operator_new_wf cs : PyDict.wf (OperatorCore.new cs).
Proof.
  destruct (operator_new_fold cs PyDict.empty) as (Hwf & _);
    [apply NoDup_nil_2|constructor|exact Hwf].
Qed.

(** X16: an operator built from a list of connectors holds one connector
    per name, filed under that name: the one registered last under the
    name, at the place where the name was registered first. *)
Theorem operator_new_last_wins (cs : list Connector.t) :
  PyDict.wf (OperatorCore.new cs)
  /\ Forall (fun kv => Connector.name (snd kv) = fst kv) (OperatorCore.new cs)
  /\ (forall name,
        PyDict.get name (OperatorCore.new cs)
        = find (fun c => String.eqb (Connector.name c) name) (rev cs))
  /\ PyDict.keys (OperatorCore.new cs) = first_seen (map Connector.name cs).
Proof.
  destruct (operator_new_fold cs PyDict.empty) as (Hwf & Hn & Hget & Hkeys).
  { apply NoDup_nil_2. }
  { constructor. }
  split; [done|]. split; [done|]. split; [|done].
  intros name. unfold OperatorCore.new. rewrite Hget. by destruct (find _ _).
Qed.

Lemma dict_sum_set k (d : PyDict.t Z) :
  dict_sum (PyDict.set k (default 0 (PyDict.get k d) + 1) d) = dict_sum d + 1.
Proof.
  unfold dict_sum, PyDict.values.
  induction d as [|[k' v'] d IH]; simpl; [lia|].
  destruct (String.eqb k k'); simpl; [lia|]. rewrite IH. lia.
Qed.

Lemma dict_sum_tally entries counts :
  dict_sum (tally entries counts)
  = dict_sum counts + Z.of_nat (length entries).
Proof.
  revert counts. unfold tally.
  induction entries as [|e entries IH]; intros counts; simpl; [lia|].
  rewrite IH, dict_sum_set. lia.
Qed.

Lemma dict_wf_tally entries counts :
  PyDict.wf counts -> PyDict.wf (tally entries counts).
Proof.
  revert counts. unfold tally.
  induction entries as [|e entries IH]; intros counts Hwf; [done|].
  simpl. by apply IH, dict_wf_set.
Qed.

Lemma alert_contents_length entries :
  Z.of_nat (length (alert_contents entries))
  = count_on "ingestion_alerts" entries.
Proof. unfold alert_contents, count_on. by rewrite length_map. Qed.

(** X17: in the report of a cycle that ran to its end, the per-layer
    counts of every audit name each layer once and add up to [produced],
    and the number of alerts is the count of the sentinel layer, or zero
    when that layer is not counted. *)
Theorem audit_counts_add_up (clock : Z) (cs : OperatorCore.t) (w : World) :
  wf_world w ->
  Forall gathers_ok (PyDict.values cs) ->
  exists report w',
    OperatorCore.run_cycle clock cs w = (Ok report, w')
    /\ map ConnectorAudit.name (AuditReport.connectors report)
       = map Connector.name (PyDict.values cs)
    /\ Forall
         (fun a =>
            PyDict.wf (ConnectorAudit.layer_counts a)
            /\ dict_sum (ConnectorAudit.layer_counts a)
               = ConnectorAudit.produced a
            /\ Z.of_nat (length (ConnectorAudit.alerts a))
               = default 0 (PyDict.get "ingestion_alerts"
                              (ConnectorAudit.layer_counts a))
            /\ Z.of_nat (length (ConnectorAudit.alerts a))
               <= ConnectorAudit.produced a)
         (AuditReport.connectors report).
Proof.
  intros Hwf Hcs.
  destruct (run_connectors_ok _ [] w Hwf Hcs) as (w' & Hr & _).
  eexists _, w'. unfold OperatorCore.run_cycle.
  rewrite (bind_ok _ _ _ _ _ Hr). split; [done|]. simpl.
  split; [by rewrite map_map|].
  apply Forall_forall. intros a Ha.
  apply list_elem_of_In, in_map_iff in Ha as (c & <- & _).
  unfold audit_of. simpl.
  split; [apply dict_wf_tally, NoDup_nil_2|].
  split; [by rewrite dict_sum_tally|].
  rewrite alert_contents_length, tally_get. simpl.
  split.
  - by destruct (Z.eqb_spec (count_on "ingestion_alerts" (gathered c)) 0).
  - unfold count_on.
    pose proof (List.filter_length_le (on_layer "ingestion_alerts") (gathered c)).
    lia.
Qed.

Lemma audit_counts_add_up_witness :
  exists report w',
    OperatorCore.run_cycle 0 alert_operator MemoryBridge.fresh = (Ok report, w')
    /\ map (fun a => dict_sum (ConnectorAudit.layer_counts a))
         (AuditReport.connectors report) = [1; 1].
Proof.
  destruct (audit_counts_add_up 0 alert_operator MemoryBridge.fresh)
    as (report & w' & Hrun & _).
  - apply wf_world_fresh.
  - by repeat constructor.
  - exists report, w'. split; [exact Hrun|].
    vm_compute in Hrun. by injection Hrun as <- <-.
Defined.








Lemma flags_audit_of c : flags (audit_of c) = connector_flags c.
Proof.
  unfold flags, connector_flags, audit_of. simpl. f_equal.
  - by destruct (gathered c).
  - destruct (alert_contents (gathered c)) eqn:E; [done|].
    by rewrite bool_decide_eq_false_2.
Qed.

(** X19: the recommendations drawn from the report of a cycle that ran to
    its end are, connector by connector in cycle order, the notice for a
    connector that gathered nothing followed by the notice for a connector
    that gathered alerts with their number, or else the one nominal
    message; an operator without connectors gets the nominal message. *)
Theorem cycle_recommendations (clock : Z) (cs : OperatorCore.t) (w : World) :
  wf_world w ->
  Forall gathers_ok (PyDict.values cs) ->
  exists report w',
    OperatorCore.run_cycle clock cs w = (Ok report, w')
    /\ OperatorCore.generate_recommendations report
       = match flat_map connector_flags (PyDict.values cs) with
         | [] => [OperatorCore.nominal]
         | r => r
         end.
Proof.
  intros Hwf Hcs.
  destruct (run_connectors_ok _ [] w Hwf Hcs) as (w' & Hr & _).
  eexists _, w'. unfold OperatorCore.run_cycle.
  rewrite (bind_ok _ _ _ _ _ Hr). split; [done|].
  unfold OperatorCore.generate_recommendations. simpl.
  rewrite recommend_flags. simpl.
  assert (flat_map flags (map audit_of (PyDict.values cs))
          = flat_map connector_flags (PyDict.values cs)) as ->.
  { clear. induction (PyDict.values cs) as [|c l IH]; [done|].
    cbn [map flat_map]. by rewrite IH, flags_audit_of. }
  by destruct (flat_map connector_flags (PyDict.values cs)).
Qed.

Lemma cycle_recommendations_witness :
  exists report w',
    OperatorCore.run_cycle 0 alert_operator MemoryBridge.fresh = (Ok report, w')
    /\ OperatorCore.generate_recommendations report
       = [OperatorCore.emitted_alerts "ALERT" 1].
Proof.
  destruct (cycle_recommendations 0 alert_operator MemoryBridge.fresh)
    as (report & w' & Hrun & Hrec).
  - apply wf_world_fresh.
  - by repeat constructor.
  - exists report, w'. split; [exact Hrun|]. by rewrite Hrec.
Defined.

(** X20: the bridge does not deduplicate: a second cycle over connectors
    that gather the same entries reports the same audits and stores every
    entry again, after the first copy. *)
Theorem run_cycle_again (clock1 clock2 : Z) (cs : OperatorCore.t) (w : World) :
  wf_world w ->
  Forall gathers_ok (PyDict.values cs) ->
  exists r1 w1 r2 w2,
    OperatorCore.run_cycle clock1 cs w = (Ok r1, w1)
    /\ OperatorCore.run_cycle clock2 cs w1 = (Ok r2, w2)
    /\ AuditReport.connectors r2 = AuditReport.connectors r1
    /\ forall n,
         stored n w2
         = stored n w ++ List.filter (on_layer n) (all_gathered cs)
                      ++ List.filter (on_layer n) (all_gathered cs).
Proof.
  intros Hwf Hcs.
  destruct (run_connectors_ok _ [] w Hwf Hcs) as (w1 & Hr1 & Hwf1 & Hs1 & _).
  destruct (run_connectors_ok _ [] w1 Hwf1 Hcs) as (w2 & Hr2 & _ & Hs2 & _).
  eexists _, w1, _, w2. unfold OperatorCore.run_cycle.
  rewrite (bind_ok _ _ _ _ _ Hr1), (bind_ok _ _ _ _ _ Hr2).
  split; [done|]. split; [done|]. split; [done|].
  intros n. unfold all_gathered. by rewrite Hs2, Hs1, <- app_assoc.
Qed.

Lemma run_cycle_again_witness :
  exists r1 w1 r2 w2,
    OperatorCore.run_cycle 0 alert_operator MemoryBridge.fresh = (Ok r1, w1)
    /\ OperatorCore.run_cycle 1 alert_operator w1 = (Ok r2, w2)
    /\ stored "ingestion_alerts" w2
       = [entry_at "ingestion_alerts" "dependency missing";
          entry_at "ingestion_alerts" "dependency missing"].
Proof.
  destruct (run_cycle_again 0 1 alert_operator MemoryBridge.fresh)
    as (r1 & w1 & r2 & w2 & H1 & H2 & _ & Hs).
  - apply wf_world_fresh.
  - by repeat constructor.
  - exists r1, w1, r2, w2. split; [exact H1|]. split; [exact H2|].
    by rewrite Hs.
Defined.

Lemma omap_total {A B} (f : A -> option B) (g : A -> B) (l : list A) :
  Forall (fun x => f x = Some (g x)) l -> omap f l = map g l.
Proof.
  induction 1 as [|x l Hx Hl IH]; [done|]. cbn. rewrite Hx. simpl.
  by f_equal.
Qed.

Lemma dict_get_map_keys {V W} (h : string -> W) n (d : PyDict.t V) :
  PyDict.get n (map (fun kv => (fst kv, h (fst kv))) d)
  = (fun _ => h n) <$> PyDict.get n d.
Proof.
  induction d as [|[k v] d IH]; simpl; [done|].
  destruct (String.eqb_spec n k) as [->|_]; [done|]. exact IH.
Qed.

(** X21: on a well-formed bridge, [layer_snapshot()] lists the layers in
    the order of the layers dict, each with the entries it holds, so that
    looking a name up in the snapshot gives what the layer of that name
    stores, and nothing for a name without a layer. *)
Theorem layer_snapshot_agrees (w : World) :
  wf_world w -> PyDict.wf (layers w) ->
  OperatorCore.layer_snapshot w
  = map (fun kv => (fst kv, stored (fst kv) w)) (layers w)
  /\ PyDict.keys (OperatorCore.layer_snapshot w) = PyDict.keys (layers w)
  /\ forall n, PyDict.get n (OperatorCore.layer_snapshot w) = layer_entries n w.
Proof.
  intros Hwf Hd.
  assert (Hsnap : OperatorCore.layer_snapshot w
                  = map (fun kv => (fst kv, stored (fst kv) w)) (layers w)).
  { unfold OperatorCore.layer_snapshot. apply omap_total.
    apply Forall_forall. intros [k a] Hin. simpl.
    apply list_elem_of_In, (dict_In_get _ _ _ Hd) in Hin.
    destruct (Hwf _ _ Hin) as (l & Hl & _).
    unfold stored, layer_entries. by rewrite Hin, Hl. }
  split; [done|]. rewrite Hsnap. split.
  - unfold PyDict.keys. rewrite map_map. by apply map_ext.
  - intros n. rewrite (dict_get_map_keys (fun k => stored k w)).
    unfold stored, layer_entries.
    destruct (PyDict.get n (layers w)) as [a|] eqn:Hn; [|done]. simpl.
    destruct (Hwf _ _ Hn) as (l & Hl & _). by rewrite Hl.
Qed.

Lemma layer_snapshot_agrees_witness :
  PyDict.get "x"
    (OperatorCore.layer_snapshot
       (snd (MemoryBridge.register_layer "x" MemoryBridge.fresh)))
  = layer_entries "x" (snd (MemoryBridge.register_layer "x" MemoryBridge.fresh)).
Proof.
  refine (proj2 (proj2 (layer_snapshot_agrees
            (snd (MemoryBridge.register_layer "x" MemoryBridge.fresh)) _ _)) "x").
  - apply register_layer_wf, wf_world_fresh.
  - apply NoDup_singleton.
Defined.

(** X22: the two ingestion paths share their storage: after a cycle of the
    operator that ran to its end and a synchronisation over nodes of the
    bridge, every layer holds what it held, then the entries the
    connectors gathered for it, then the entries polled from the nodes for
    it. *)
Theorem run_cycle_then_sync (clock : Z) (cs : OperatorCore.t)
    (nodes_ : list nat) (w : World) :
  wf_world w ->
  Forall gathers_ok (PyDict.values cs) ->
  valid_nodes nodes_ w ->
  valid_nodes (WitnessNetwork.subscribers (witnesses w)) w ->
  exists report w1 w2,
    OperatorCore.run_cycle clock cs w = (Ok report, w1)
    /\ MemoryBridge.sync nodes_ w1 = (Ok tt, w2)
    /\ forall n,
         stored n w2
         = stored n w
           ++ List.filter (on_layer n) (all_gathered cs)
           ++ List.filter (on_layer n)
                (polled (polls nodes_ (map Node.outbound (nodes w)))).
Proof.
  intros Hwf Hcs Hvn Hvs.
  destruct (run_connectors_ok _ [] w Hwf Hcs) as (w1 & Hr1 & Hwf1 & Hs1 & _).
  pose proof (keeps_run_connectors (PyDict.values cs) [] w) as Hk.
  rewrite Hr1 in Hk. unfold witness_side in Hk. simpl in Hk.
  injection Hk as Hw1 Hn1.
  destruct (cycle_run nodes_ w1) as (w2 & Hc & _ & _ & _ & Hs2 & _).
  { done. }
  { unfold valid_nodes. by rewrite Hn1. }
  { unfold valid_nodes. by rewrite Hw1, Hn1. }
  eexists _, w1, w2. unfold OperatorCore.run_cycle, MemoryBridge.sync.
  rewrite (bind_ok _ _ _ _ _ Hr1). split; [done|]. split; [exact Hc|].
  intros n. unfold all_gathered. by rewrite Hs2, Hs1, Hn1, <- app_assoc.
Qed.

Lemma run_cycle_then_sync_witness :
  exists report w1 w2,
    OperatorCore.run_cycle 0 alert_operator
      (mkWorld [] [Node.new "A" [entry_at "legal_evidence" "doc"]] []
         WitnessNetwork.new [])
    = (Ok report, w1)
    /\ MemoryBridge.sync [0%nat] w1 = (Ok tt, w2)
    /\ stored "legal_evidence" w2
       = [entry_at "legal_evidence" "Indexed file: a";
          entry_at "legal_evidence" "doc"].
Proof.
  destruct (run_cycle_then_sync 0 alert_operator [0%nat]
              (mkWorld [] [Node.new "A" [entry_at "legal_evidence" "doc"]] []
                 WitnessNetwork.new []))
    as (report & w1 & w2 & H1 & H2 & Hs).
  - by intros n a Hn.
  - by repeat constructor.
  - repeat constructor.
  - constructor.
  - exists report, w1, w2. split; [exact H1|]. split; [exact H2|].
    by rewrite Hs.
Defined.

(** ** The static connector *)

Lemma tally_one_layer layer (es : list MemoryEntry.t) k :
  Forall (fun e => MemoryEntry.layer e = layer) es ->
  tally es [(layer, k)] = [(layer, k + Z.of_nat (length es))].
Proof.
  intros Hes. revert k. unfold tally.
  induction Hes as [|e es He Hes IH]; intros k.
  - simpl. by rewrite Z.add_0_r.
  - cbn [fold_left]. rewrite He. simpl. rewrite String.eqb_refl. simpl.
    rewrite IH. do 2 f_equal. simpl length. lia.
Qed.

Lemma static_gather_layer clock sc :
  Forall (fun e => MemoryEntry.layer e = StaticConnector.layer sc)
    (StaticConnector.gather clock sc).
Proof.
  unfold StaticConnector.gather. apply Forall_forall. intros e He.
  apply list_elem_of_In, in_map_iff in He as (p & <- & _). done.
Qed.

Lemma filter_all {A} (f : A -> bool) l :
  Forall (fun x => f x = true) l -> List.filter f l = l.
Proof. induction 1 as [|x l Hx Hl IH]; simpl; [done|]. by rewrite Hx, IH. Qed.

Lemma filter_none {A} (f : A -> bool) l :
  Forall (fun x => f x = false) l -> List.filter f l = [].
Proof. induction 1 as [|x l Hx Hl IH]; simpl; [done|]. by rewrite Hx. Qed.

Lemma static_gather_on_layer clock sc n :
  List.filter (on_layer n) (StaticConnector.gather clock sc)
  = if String.eqb (StaticConnector.layer sc) n
    then StaticConnector.gather clock sc else [].
Proof.
  pose proof (static_gather_layer clock sc) as Hl.
  destruct (String.eqb (StaticConnector.layer sc) n) eqn:E.
  - apply filter_all. eapply Forall_impl; [exact Hl|].
    intros e He. unfold on_layer. simpl in He. by rewrite He.
  - apply filter_none. eapply Forall_impl; [exact Hl|].
    intros e He. unfold on_layer. simpl in He. by rewrite He.
Qed.

(** X23: a cycle over one static connector with a layer name that is not
    blank runs to its end: the audit counts one entry per payload, all on
    the connector's layer, lists the payloads as alerts exactly when that
    layer is the sentinel one, and the layer receives one entry per
    payload, in payload order, each stamped with the connector's source
    and the one clock reading of the gather. *)
Theorem static_connector_cycle (clock gather_clock : Z)
    (sc : StaticConnector.t) (w : World) :
  wf_world w ->
  blank (StaticConnector.layer sc) = false ->
  exists w',
    OperatorCore.run_cycle clock
      (OperatorCore.new [StaticConnector.connector gather_clock sc]) w
    = (Ok (AuditReport.mk (datetime.now_utc clock)
             [ConnectorAudit.mk (StaticConnector.name sc)
                (Z.of_nat (length (StaticConnector.payloads sc)))
                (match StaticConnector.payloads sc with
                 | [] => []
                 | _ :: _ =>
                     [(StaticConnector.layer sc,
                       Z.of_nat (length (StaticConnector.payloads sc)))]
                 end)
                (if String.eqb (StaticConnector.layer sc) "ingestion_alerts"
                 then StaticConnector.payloads sc else [])]),
       w')
    /\ stored (StaticConnector.layer sc) w'
       = stored (StaticConnector.layer sc) w
         ++ map (fun payload =>
                   MemoryEntry.mk (StaticConnector.layer sc) payload
                     (StaticConnector.source sc) (datetime.now_utc gather_clock))
              (StaticConnector.payloads sc)
    /\ forall n, n <> StaticConnector.layer sc -> stored n w' = stored n w.
Proof.
  intros Hwf Hb.
  set (c := StaticConnector.connector gather_clock sc).
  assert (Hok : Forall gathers_ok [c]).
  { constructor; [|constructor]. split; [done|]. simpl.
    eapply Forall_impl; [apply static_gather_layer|].
    intros e He. simpl in He. by rewrite He. }
  destruct (run_connectors_ok [c] [] w Hwf Hok) as (w' & Hr & _ & Hs & _).
  exists w'. unfold OperatorCore.run_cycle.
  change (PyDict.values (OperatorCore.new [c])) with [c].
  rewrite (bind_ok _ _ _ _ _ Hr). split; [|split].
  - unfold ret. do 3 f_equal. unfold audit_of. simpl.
    change (gathered c) with (StaticConnector.gather gather_clock sc).
    assert (Hlen : length (StaticConnector.gather gather_clock sc)
                   = length (StaticConnector.payloads sc)).
    { unfold StaticConnector.gather. apply length_map. }
    rewrite Hlen. f_equal. f_equal.
    + unfold StaticConnector.gather.
      destruct (StaticConnector.payloads sc) as [|p ps] eqn:Hp; [done|].
      unfold tally. cbn [map fold_left]. simpl PyDict.set.
      pose proof (tally_one_layer (StaticConnector.layer sc)
                    (map (fun payload =>
                            MemoryEntry.mk (StaticConnector.layer sc) payload
                              (StaticConnector.source sc)
                              (datetime.now_utc gather_clock)) ps) (0 + 1)) as Ht.
      unfold tally in Ht. rewrite Ht.
      * rewrite length_map. do 2 f_equal. simpl length. lia.
      * apply Forall_forall. intros e He.
        by apply list_elem_of_In, in_map_iff in He as (q & <- & _).
    + unfold alert_contents. rewrite static_gather_on_layer.
      destruct (String.eqb _ _); [|done].
      unfold StaticConnector.gather. rewrite map_map. simpl. apply map_id.
  - rewrite Hs. cbn [map concat].
    change (gathered c) with (StaticConnector.gather gather_clock sc).
    rewrite app_nil_r, static_gather_on_layer.
    by rewrite String.eqb_refl.
  - intros n Hn. rewrite Hs. cbn [map concat].
    change (gathered c) with (StaticConnector.gather gather_clock sc).
    rewrite app_nil_r, static_gather_on_layer.
    destruct (String.eqb_spec (StaticConnector.layer sc) n); [congruence|].
    by rewrite app_nil_r.
Qed.

Lemma static_connector_cycle_witness :
  exists w',
    OperatorCore.run_cycle 9
      (OperatorCore.new
         [StaticConnector.connector 7
            (StaticConnector.mk "SOVEREIGN_ASCENSION_PROTOCOL"
               "operational_notes" ["first"; "second"] "OPERATOR")])
      MemoryBridge.fresh
    = (Ok (AuditReport.mk (datetime.now_utc 9)
             [ConnectorAudit.mk "SOVEREIGN_ASCENSION_PROTOCOL" 2
                [("operational_notes", 2)] []]),
       w')
    /\ stored "operational_notes" w'
       = [ MemoryEntry.mk "operational_notes" "first" "OPERATOR"
             (datetime.now_utc 7);
           MemoryEntry.mk "operational_notes" "second" "OPERATOR"
             (datetime.now_utc 7) ].
Proof.
  destruct (static_connector_cycle 9 7
              (StaticConnector.mk "SOVEREIGN_ASCENSION_PROTOCOL"
                 "operational_notes" ["first"; "second"] "OPERATOR")
              MemoryBridge.fresh wf_world_fresh eq_refl)
    as (w' & Hrun & Hs & _).
  exists w'. split; [exact Hrun|exact Hs].
Defined.

(** ** The orchestrator's sequential execution *)

Lemma execute_each_spec d (l : PyDict.t Connector.t) results h :
  Forall (fun kv => PyDict.get (fst kv) d = Some (snd kv)) l ->
  MCPOrchestrator.execute_each (PyDict.keys l) results (MCPOrchestrator.mk d h)
  = (fold_left (fun r kv => PyDict.set (fst kv) (gathered (snd kv)) r) l results,
     MCPOrchestrator.mk d (h ++ map execution_of l)).
Proof.
  intros Hl. revert results h.
  induction Hl as [|[k c] l Hk Hl IH]; intros results h.
  - simpl. by rewrite app_nil_r.
  - simpl in Hk. cbn [PyDict.keys map fst MCPOrchestrator.execute_each].
    unfold MCPOrchestrator.execute_single_connector.
    cbn [MCPOrchestrator.connectors MCPOrchestrator.execution_history].
    rewrite Hk. unfold PyDict.keys in IH. cbn [fst snd fold_left map].
    change (execution_of (k, c))
      with (match Connector.gather c with
            | Ok entries => MCPOrchestrator.Succeeded k (length entries)
            | Raise e => MCPOrchestrator.Failed k e
            end).
    change (gathered c)
      with (match Connector.gather c with Ok entries => entries | Raise _ => [] end).
    destruct (Connector.gather c) as [entries|e];
      rewrite IH; by rewrite <- app_assoc.
Qed.

Lemma dict_get_fold_set {V W} (g : V -> W) (l : PyDict.t V) (r : PyDict.t W) k :
  PyDict.wf l ->
  PyDict.get k (fold_left (fun r kv => PyDict.set (fst kv) (g (snd kv)) r) l r)
  = match PyDict.get k l with
    | Some v => Some (g v)
    | None => PyDict.get k r
    end.
Proof.
  unfold PyDict.wf. revert r. induction l as [|[k0 v0] l IH]; intros r Hl.
  - done.
  - simpl in Hl. apply NoDup_cons in Hl as [Hk0 Hl]. cbn [fold_left fst snd].
    rewrite IH by done. simpl.
    destruct (String.eqb_spec k k0) as [->|Hne].
    + assert (PyDict.get k0 l = None) as ->.
      { apply dict_get_None_keys. by rewrite <- list_elem_of_In. }
      apply dict_get_set_eq.
    + destruct (PyDict.get k l); [done|]. by apply dict_get_set_ne.
Qed.

Lemma dict_keys_fold_set {V W} (g : V -> W) (l : PyDict.t V) (r : PyDict.t W) :
  NoDup (PyDict.keys r ++ PyDict.keys l) ->
  PyDict.keys (fold_left (fun r kv => PyDict.set (fst kv) (g (snd kv)) r) l r)
  = PyDict.keys r ++ PyDict.keys l.
Proof.
  revert r. induction l as [|[k0 v0] l IH]; intros r Hnd.
  - simpl. by rewrite app_nil_r.
  - cbn [fold_left fst snd]. simpl in Hnd.
    assert (Hk : PyDict.keys (PyDict.set k0 (g v0) r) = PyDict.keys r ++ [k0]).
    { rewrite dict_keys_set.
      destruct (PyDict.contains k0 r) eqn:Hc; [|done].
      apply dict_contains_keys, list_elem_of_In in Hc.
      apply NoDup_app in Hnd as (_ & Hdis & _). exfalso.
      apply (Hdis k0 Hc). by left. }
    rewrite IH; rewrite Hk, <- app_assoc; [done|]. simpl. exact Hnd.
Qed.

(** X24: the sequential execution of the orchestrator isolates failures:
    it returns one result per connector, in registration order, the
    gathered entries for a connector that returned and the empty list for
    one that raised; it keeps the connectors, and it appends to the history
    one record per connector, a failure record for each one that raised. *)
Theorem execute_sequential_isolates (o : MCPOrchestrator.t) :
  PyDict.wf (MCPOrchestrator.connectors o) ->
  PyDict.keys (fst (MCPOrchestrator.execute_sequential o))
  = PyDict.keys (MCPOrchestrator.connectors o)
  /\ (forall name,
        PyDict.get name (fst (MCPOrchestrator.execute_sequential o))
        = gathered <$> PyDict.get name (MCPOrchestrator.connectors o))
  /\ MCPOrchestrator.connectors (snd (MCPOrchestrator.execute_sequential o))
     = MCPOrchestrator.connectors o
  /\ MCPOrchestrator.execution_history
       (snd (MCPOrchestrator.execute_sequential o))
     = MCPOrchestrator.execution_history o
       ++ map execution_of (MCPOrchestrator.connectors o).
Proof.
  intros Hwf. destruct o as [d h]. unfold MCPOrchestrator.execute_sequential.
  simpl in *. rewrite execute_each_spec.
  2:{ apply Forall_forall. intros [k c] Hin. simpl.
      by apply dict_In_get, list_elem_of_In. }
  simpl. split; [|split; [|done]].
  - by rewrite dict_keys_fold_set.
  - intros name. rewrite dict_get_fold_set by done.
    by destruct (PyDict.get name d).
Qed.

Lemma execute_sequential_isolates_witness :
  PyDict.get "BROKEN" (fst (MCPOrchestrator.execute_sequential
                              (MCPOrchestrator.mk failing_operator [])))
  = Some []
  /\ PyDict.get "LAST" (fst (MCPOrchestrator.execute_sequential
                               (MCPOrchestrator.mk failing_operator [])))
     = Some [entry_at "y" "two"].
Proof.
  assert (Hwf : PyDict.wf failing_operator) by apply operator_new_wf.
  pose proof (proj1 (proj2 (execute_sequential_isolates
                              (MCPOrchestrator.mk failing_operator []) Hwf))) as H.
  split; [exact (H "BROKEN")|exact (H "LAST")].
Defined.

(** X25: [remove_connector] answers whether the name was registered;
    afterwards executing that name returns no entries and records nothing,
    and every other name keeps its connector. *)
Theorem remove_connector_contract (name : string) (o : MCPOrchestrator.t) :
  PyDict.wf (MCPOrchestrator.connectors o) ->
  fst (MCPOrchestrator.remove_connector name o)
  = PyDict.contains name (MCPOrchestrator.connectors o)
  /\ MCPOrchestrator.execute_single_connector name
       (snd (MCPOrchestrator.remove_connector name o))
     = ([], snd (MCPOrchestrator.remove_connector name o))
  /\ MCPOrchestrator.execution_history
       (snd (MCPOrchestrator.remove_connector name o))
     = MCPOrchestrator.execution_history o
  /\ forall other, other <> name ->
       PyDict.get other
         (MCPOrchestrator.connectors
            (snd (MCPOrchestrator.remove_connector name o)))
       = PyDict.get other (MCPOrchestrator.connectors o).
Proof.
  intros Hwf. unfold MCPOrchestrator.remove_connector.
  destruct (PyDict.contains name (MCPOrchestrator.connectors o)) eqn:Hc; simpl.
  - split; [done|]. unfold MCPOrchestrator.execute_single_connector. simpl.
    rewrite dict_get_remove_eq by done. split; [done|]. split; [done|].
    intros other Hne. by apply dict_get_remove_ne.
  - split; [done|]. unfold MCPOrchestrator.execute_single_connector.
    unfold PyDict.contains in Hc.
    by destruct (PyDict.get name (MCPOrchestrator.connectors o)).
Qed.

Lemma remove_connector_contract_witness :
  MCPOrchestrator.execute_single_connector "FIRST"
    (snd (MCPOrchestrator.remove_connector "FIRST"
            (MCPOrchestrator.mk failing_operator [])))
  = ([], snd (MCPOrchestrator.remove_connector "FIRST"
                (MCPOrchestrator.mk failing_operator []))).
Proof.
  refine (proj1 (proj2 (remove_connector_contract "FIRST"
                          (MCPOrchestrator.mk failing_operator []) _))).
  apply operator_new_wf.
Defined.

(** ** Layers made by a synchronisation and the catalog *)

Lemma stored_nonempty_layer n w :
  stored n w <> [] -> exists a, PyDict.get n (layers w) = Some a.
Proof.
  unfold stored, layer_entries.
  destruct (PyDict.get n (layers w)) as [a|]; [by eexists|done].
Qed.

(** X26: a layer that a synchronisation fills is never given its catalog
    spec afterwards: once a successful cycle has polled an entry for a
    layer, [register_layer] of that layer's name finds the layer and leaves
    the catalog exactly as it was before the cycle. *)
Theorem sync_layer_never_filed (nodes_ : list nat) (w : World)
    (e : MemoryEntry.t) :
  wf_world w ->
  valid_nodes nodes_ w ->
  valid_nodes (WitnessNetwork.subscribers (witnesses w)) w ->
  In e (polled (polls nodes_ (map Node.outbound (nodes w)))) ->
  exists w',
    MemoryBridge.sync nodes_ w = (Ok tt, w')
    /\ PyDict.contains (MemoryEntry.layer e) (layers w') = true
    /\ catalog (snd (MemoryBridge.register_layer (MemoryEntry.layer e) w'))
       = catalog w.
Proof.
  intros Hwf Hvn Hvs He.
  destruct (cycle_run nodes_ w Hwf Hvn Hvs)
    as (w' & Hc & _ & Hcat & _ & Hs & _).
  exists w'. split; [exact Hc|].
  destruct (stored_nonempty_layer (MemoryEntry.layer e) w') as [a Ha].
  { rewrite Hs. intros Hnil. apply app_eq_nil in Hnil as [_ Hnil].
    assert (Hin : In e (List.filter (on_layer (MemoryEntry.layer e))
                          (polled (polls nodes_ (map Node.outbound (nodes w)))))).
    { apply filter_In. split; [done|]. apply String.eqb_refl. }
    rewrite Hnil in Hin. destruct Hin. }
  split; [unfold PyDict.contains; by rewrite Ha|].
  destruct (blank (MemoryEntry.layer e)) eqn:Hb.
  - by rewrite register_layer_blank.
  - rewrite register_layer_run, Ha by done. exact Hcat.
Qed.

Lemma sync_layer_never_filed_witness :
  exists w',
    MemoryBridge.sync [0%nat]
      (mkWorld [] [Node.new "A" [entry_at "x" "doc"]] [] WitnessNetwork.new [])
    = (Ok tt, w')
    /\ PyDict.contains "x" (layers w') = true
    /\ catalog (snd (MemoryBridge.register_layer "x" w')) = [].
Proof.
  apply (sync_layer_never_filed [0%nat]
           (mkWorld [] [Node.new "A" [entry_at "x" "doc"]] []
              WitnessNetwork.new [])
           (entry_at "x" "doc")).
  - by intros n a Hn.
  - repeat constructor.
  - constructor.
  - by left.
Defined.
